(** * import_zip.py: layout parsing, type mapping and table loading

    A shallow embedding of [src/import_zip.py] and the properties of its
    schema-extraction-and-load pipeline.

    Conventions of the embedding.
    - A Python [str] is a [string]; a character is an [ascii], read as the
      code point U+0000..U+00FF.  Text with code points above U+00FF is
      outside this model.  The character classes below ([\s], [\d], [A-Z],
      [str.lower], the white space of [int]) are the ones of Python 3 on
      that range.
    - Every regular expression of the source is embedded as the scanner
      that the backtracking matcher of [re] computes for that expression;
      the comments at each scanner say why the greedy choice is the only
      one that can succeed.
    - A call that can raise returns a [result]; the exception classes are
      the ones the source raises. *)

From Stdlib Require Import ZArith Ascii Decimal DecimalString DecimalZ DecimalPos Lia.
From Stdlib Require String.
From stdpp Require Import base option list gmap strings.

(** [simpl] unfolds [+:+] on a string that starts with a character. *)
#[local] Arguments String.append !_ _ / : simpl nomatch.

(** ** Exceptions and results *)

(** [DatabaseError] is what [sqlalchemy] raises when the database refuses
    a statement.

    [PatternNotLiteral] is not a Python exception.  [extract_table_schemas]
    splices a table name into a pattern; when that name holds a character
    that is special to [re], the pattern is no longer the literal text and
    the model stops there with [Raise PatternNotLiteral]. *)
Inductive exn : Set :=
| AttributeError
| TypeError
| ValueError
| NotImplementedError
| IndexError
| DatabaseError
| PatternNotLiteral.

Inductive result (A : Type) : Type :=
| Ret (a : A)
| Raise (e : exn).
Arguments Ret {A} a.
Arguments Raise {A} e.

(** [x ← r; k] runs [k] on what [r] returns and passes on what it raises. *)
#[global] Instance result_bind : MBind result := λ A B k r,
  match r with
  | Ret a => k a
  | Raise e => Raise e
  end.

(** [tuple(map(f, xs))]: the first exception, left to right, wins. *)
Fixpoint map_result {A B : Type} (f : A → result B) (xs : list A)
  : result (list B) :=
  match xs with
  | [] => Ret []
  | x :: xs' => y ← f x; ys ← map_result f xs'; Ret (y :: ys)
  end.

(** ** Characters *)

Definition LF : ascii := "010".

Definition ord (c : ascii) : N := N_of_ascii c.

Definition between (lo hi : N) (c : ascii) : bool :=
  ((lo <=? ord c) && (ord c <=? hi))%N.

(** [[A-Z]] *)
Definition is_upper (c : ascii) : bool := between 65 90 c.

(** [\d] *)
Definition is_digit (c : ascii) : bool := between 48 57 c.

(** [\s] of a [str] pattern: TAB LF VT FF CR, FS GS RS US, SPACE, NEL, NBSP. *)
Definition is_space (c : ascii) : bool :=
  between 9 13 c || between 28 32 c || (ord c =? 133)%N || (ord c =? 160)%N.

(** White space skipped by [int(str)]: TAB LF VT FF CR, SPACE, NEL, NBSP
    (the separators U+001C..U+001F are not skipped). *)
Definition is_int_space (c : ascii) : bool :=
  between 9 13 c || (ord c =? 32)%N || (ord c =? 133)%N || (ord c =? 160)%N.

(** [str.lower] on one character: A..Z and the capital letters U+00C0..U+00DE
    except the multiplication sign U+00D7 move up by 32. *)
Definition lower_char (c : ascii) : ascii :=
  if between 65 90 c || between 192 214 c || between 216 222 c
  then ascii_of_N (ord c + 32)
  else c.

(** ** Strings *)

Fixpoint lower (s : string) : string :=
  match s with
  | EmptyString => EmptyString
  | String c s' => String (lower_char c) (lower s')
  end.

(** [s.startswith(p)] *)
Fixpoint startswith (p s : string) : bool :=
  match p, s with
  | EmptyString, _ => true
  | String a p', String b s' => Ascii.eqb a b && startswith p' s'
  | String _ _, EmptyString => false
  end.

Fixpoint drop_str (n : nat) (s : string) : string :=
  match n, s with
  | O, _ => s
  | S n', String _ s' => drop_str n' s'
  | S _, EmptyString => EmptyString
  end.

Fixpoint take_str (n : nat) (s : string) : string :=
  match n, s with
  | S n', String c s' => String c (take_str n' s')
  | _, _ => EmptyString
  end.

(** [s[start:stop]] for indices that are not negative; [stop = None] is the
    slice to the end.  A stop at or before the start gives the empty string. *)
Definition slice (s : string) (start : nat) (stop : option nat) : string :=
  match stop with
  | None => drop_str start s
  | Some e => take_str (e - start) (drop_str start s)
  end.

(** The longest prefix whose characters all satisfy [p], and what follows:
    what a greedy [[class]*] consumes. *)
Fixpoint span (p : ascii → bool) (s : string) : string * string :=
  match s with
  | EmptyString => (EmptyString, EmptyString)
  | String c s' =>
      if p c then let '(run, rest) := span p s' in (String c run, rest)
      else (EmptyString, s)
  end.

Fixpoint all_chars (p : ascii → bool) (s : string) : bool :=
  match s with
  | EmptyString => true
  | String c s' => p c && all_chars p s'
  end.

Definition is_empty (s : string) : bool :=
  match s with EmptyString => true | String _ _ => false end.

(** ** Python's [int(str)] and [str(int)] *)

Definition digit_of (c : ascii) : option (uint → uint) :=
  match c with
  | "0" => Some D0 | "1" => Some D1 | "2" => Some D2 | "3" => Some D3
  | "4" => Some D4 | "5" => Some D5 | "6" => Some D6 | "7" => Some D7
  | "8" => Some D8 | "9" => Some D9
  | _ => None
  end%char.

(** The digits of a run of digits and underscores. *)
Fixpoint digits_of (run : string) : uint :=
  match run with
  | EmptyString => Nil
  | String c run' =>
      match digit_of c with
      | Some d => d (digits_of run')
      | None => digits_of run'
      end
  end.

(** An underscore is accepted between two digits only: not first, not last,
    not doubled.  [prev] tells that the previous character was an underscore
    (or that there is none yet), so the empty run is refused too. *)
Fixpoint underscores_ok (prev : bool) (run : string) : bool :=
  match run with
  | EmptyString => negb prev
  | String c run' =>
      if Ascii.eqb c "_" then negb prev && underscores_ok true run'
      else underscores_ok false run'
  end.

(** [int(s)], base 10, as Python 3.6 to 3.10 read it: white space, an
    optional sign, digits with single underscores between them, white space.
    The limit that Python 3.11 put on the number of digits of a conversion
    is not modelled. *)
Definition int_sign (s : string) : bool * string :=
  match s with
  | String "+" r => (false, r)
  | String "-" r => (true, r)
  | _ => (false, s)
  end.

Definition int (s : string) : result Z :=
  let '(negative, s2) := int_sign (snd (span is_int_space s)) in
  let '(run, rest) := span (λ c, is_digit c || Ascii.eqb c "_") s2 in
  if underscores_ok true run && all_chars is_int_space rest
  then Ret (Z.of_int (if negative then Neg (digits_of run)
                      else Pos (digits_of run)))
  else Raise ValueError.

(** [str(n)] for an [int] n. *)
Definition str (n : Z) : string := NilZero.string_of_int (Z.to_int n).

(** ** Type Mapper: [get_field_type] *)

(** [sqlalchemy.types]: the values [get_field_type] returns. *)
Module types.
Inductive t : Set :=
| String (length : Z)
| Integer
| BigInteger
| Numeric (precision scale : Z)
| Date.
End types.

(** The text before the last [)] of [s], when [s] has one. *)
Fixpoint before_last_rparen (s : string) : option string :=
  match s with
  | EmptyString => None
  | String c s' =>
      match before_last_rparen s' with
      | Some a => Some (String c a)
      | None => if Ascii.eqb c ")" then Some EmptyString else None
      end
  end.

(** [re.match(r'(?P<type>[^(]+)(?:\((?P<args>.+)\))?', text)]: the groups
    [type] and [args] ([None] when the optional group did not take part), or
    [None] when there is no match.

    [[^(]+] is greedy and the group after it is optional, so the first
    success has [type] at its longest: all the text before the first [(].
    [.+] runs to the end of the line (it does not cross LF) and gives back
    characters until a [)] follows; it keeps at least one character. *)
Definition match_field_type (text : string) : option (string * option string) :=
  let '(type, rest) := span (λ c, negb (Ascii.eqb c "(")) text in
  if is_empty type then None
  else
    Some (type,
          match rest with
          | String "(" (String c r) =>
              if Ascii.eqb c LF then None
              else
                match before_last_rparen (fst (span (λ c, negb (Ascii.eqb c LF)) r)) with
                | Some a => Some (String c a)
                | None => None
                end
          | _ => None
          end).

(** [re.split(r',\s*', args)].  [skipping] tells that a comma has just been
    met and that its white space is still being consumed. *)
Fixpoint re_split_comma (skipping : bool) (s : string) : list string :=
  match s with
  | EmptyString => [EmptyString]
  | String c s' =>
      if skipping && is_space c then re_split_comma true s'
      else if Ascii.eqb c "," then EmptyString :: re_split_comma true s'
      else
        match re_split_comma false s' with
        | piece :: pieces => String c piece :: pieces
        | [] => [String c EmptyString]
        end
  end.

Definition get_field_type (field_type_text : string) : result types.t :=
  match match_field_type field_type_text with
  | None => Raise AttributeError
  | Some (field_type_component, args) =>
      if bool_decide (field_type_component = "VARCHAR")
         || bool_decide (field_type_component = "VARCHAR2")
      then
        match args with
        | None => Raise TypeError
        | Some a => length ← int a; Ret (types.String length)
        end
      else if bool_decide (field_type_component = "NUMBER") then
        match args with
        | None => Ret types.BigInteger
        | Some a =>
            number_args ← map_result int (re_split_comma false a);
            match number_args with
            | [length] =>
                if (length <? 10)%Z then Ret types.Integer
                else Ret types.BigInteger
            | [precision; scale] => Ret (types.Numeric precision scale)
            | _ => Raise NotImplementedError
            end
        end
      else if bool_decide (field_type_component = "DATE") then Ret types.Date
      else Raise NotImplementedError
  end.

(** ** Layout Parser: [extract_schema] and [make_schema_io] *)

(** The four named groups of one match of the field-declaration pattern. *)
Record Match : Set := {
  group_field_name : string;
  group_field_type : string;
  group_start_column : string;
  group_end_column : string
}.

(** One row of the schema that [make_schema_io] writes: the dictionary with
    the keys [column], [start], [length] and [field_type]. *)
Module Row.
Record t : Set := {
  column : string;
  start : string;
  length : string;
  field_type : string
}.
End Row.

(** The schema as a [StringIO]: the rows written after the header row (the
    CSV text that carries them is not modelled) and the read position,
    counted in rows. *)
Record StringIO : Set := {
  getvalue : list Row.t;
  tell : nat
}.

Definition seek0 (io : StringIO) : StringIO :=
  {| getvalue := getvalue io; tell := 0 |}.

(** [csv.DictReader(io)] read to the end: the rows from the read position
    on, and the stream left at its end. *)
Definition read_rows (io : StringIO) : list Row.t * StringIO :=
  (drop (tell io) (getvalue io),
   {| getvalue := getvalue io; tell := length (getvalue io) |}).

(** [[A-Z][^\s]+] at its longest.  Every use below is followed by [\s+],
    which cannot start inside the token, so no shorter token can succeed. *)
Definition scan_token (s : string) : option (string * string) :=
  match s with
  | String c s' =>
      if is_upper c then
        let '(run, rest) := span (λ c, negb (is_space c)) s' in
        if is_empty run then None else Some (String c run, rest)
      else None
  | EmptyString => None
  end.

(** [\s+] at its longest. *)
Definition scan_spaces (s : string) : option (string * string) :=
  let '(run, rest) := span is_space s in
  if is_empty run then None else Some (run, rest).

(** [\d+] at its longest; a separator that is not a digit follows. *)
Definition scan_digits (s : string) : option (string * string) :=
  let '(run, rest) := span is_digit s in
  if is_empty run then None else Some (run, rest).

Definition scan_char (c : ascii) (s : string) : option string :=
  match s with
  | String c' s' => if Ascii.eqb c c' then Some s' else None
  | EmptyString => None
  end.

(** [(?P<field_type>[A-Z][^\s]+)\s+\((?P<start_column>\d+):(?P<end_column>\d+)\)] *)
Definition scan_type_and_columns (s : string)
  : option (string * string * string * string) :=
  '(field_type, s) ← scan_token s;
  '(_, s) ← scan_spaces s;
  s ← scan_char "(" s;
  '(start_column, s) ← scan_digits s;
  s ← scan_char ":" s;
  '(end_column, s) ← scan_digits s;
  s ← scan_char ")" s;
  Some (field_type, start_column, end_column, s).

(** The field-declaration pattern of [extract_schema], tried at a line
    start: the match and the text after it.

    After the field name comes a run of [w] white-space characters.  The
    first [\s+] takes [k] of them.  With [k = w] the marker [NOT NULL] may
    follow, and then the second [\s+] needs white space after the marker;
    without the marker the second [\s+] would have to start at a character
    that is no white space.  With [k < w] the marker cannot start (a white
    space follows) and the second [\s+] takes the other [w - k] characters,
    so this way needs [w >= 2], and every [k] gives the same groups.  When
    the marker follows the run, the way without it reads NOT as the type
    and then needs [(] where NULL stands; so at most one way succeeds. *)
Definition scan_marker_type_columns (w1 s2 : string)
  : option (string * string * string * string) :=
  let with_marker :=
    if startswith "NOT NULL" s2
    then '(_, s3) ← scan_spaces (drop_str 8 s2); scan_type_and_columns s3
    else None in
  let without_marker :=
    if 2 <=? String.length w1 then scan_type_and_columns s2 else None in
  match with_marker with Some r => Some r | None => without_marker end.

Definition match_field_spec (s : string) : option (Match * string) :=
  '(field_name, s1) ← scan_token s;
  '(w1, s2) ← scan_spaces s1;
  '(field_type, start_column, end_column, rest) ←
    scan_marker_type_columns w1 s2;
  Some ({| group_field_name := field_name;
           group_field_type := field_type;
           group_start_column := start_column;
           group_end_column := end_column |}, rest).

(** [re.finditer(pattern, fragment, re.MULTILINE)]: the matches from left to
    right, not overlapping.  [skip] counts the characters still inside the
    last match; [bol] tells that the position is a line start (the start of
    the text or just after LF). *)
Fixpoint finditer_field_specs (skip : nat) (bol : bool) (s : string)
  : list Match :=
  match s with
  | EmptyString => []
  | String c s' =>
      match skip with
      | S k => finditer_field_specs k (Ascii.eqb c LF) s'
      | O =>
          match (if bol then match_field_spec s else None) with
          | Some (m, rest) =>
              m :: finditer_field_specs
                     (String.length s' - String.length rest)
                     (Ascii.eqb c LF) s'
          | None => finditer_field_specs 0 (Ascii.eqb c LF) s'
          end
      end
  end.

Definition make_row (row : Match) : result Row.t :=
  start_column ← int (group_start_column row);
  end_column ← int (group_end_column row);
  Ret {| Row.column := group_field_name row;
         Row.start := str start_column;
         Row.length := str (end_column - start_column + 1);
         Row.field_type := group_field_type row |}.

Definition make_schema_io (raw_field_specs : list Match) : result StringIO :=
  rows ← map_result make_row raw_field_specs;
  Ret {| getvalue := rows; tell := 0 |}.

Definition extract_schema (readme_fragment : string) : result StringIO :=
  make_schema_io (finditer_field_specs 0 true readme_fragment).

(** ** Layout Parser: [extract_table_schemas] *)

(** [^([A-Z][^ ]+) - ] tried at a line start: the table name.  [[^ ]+] is
    at its longest because a space has to follow it. *)
Definition match_table_header (s : string) : option string :=
  match s with
  | String c s' =>
      if is_upper c then
        let '(run, rest) := span (λ c, negb (Ascii.eqb c " ")) s' in
        if negb (is_empty run) && startswith " - " rest
        then Some (String c run) else None
      else None
  | EmptyString => None
  end.

(** [re.findall(r'^([A-Z][^ ]+) - ', readme, re.MULTILINE)] *)
Fixpoint findall_table_names (skip : nat) (bol : bool) (s : string)
  : list string :=
  match s with
  | EmptyString => []
  | String c s' =>
      match skip with
      | S k => findall_table_names k (Ascii.eqb c LF) s'
      | O =>
          match (if bol then match_table_header s else None) with
          | Some table_name =>
              table_name :: findall_table_names
                              (String.length table_name + 2)
                              (Ascii.eqb c LF) s'
          | None => findall_table_names 0 (Ascii.eqb c LF) s'
          end
      end
  end.

(** The characters that are special in a pattern of [re]. *)
Definition is_re_special (c : ascii) : bool :=
  match c with
  | "." | "^" | "$" | "*" | "+" | "?" | "{" | "}" | "[" | "]" | "\" | "|"
  | "(" | ")" => true
  | _ => false
  end%char.

(** The offset of the first line start at which the text [pat] stands:
    [re.search('^' + pat, s, re.MULTILINE).start()] for a literal [pat]. *)
Fixpoint search_line_start (pat : string) (pos : nat) (bol : bool)
    (s : string) : option nat :=
  if bol && startswith pat s then Some pos
  else
    match s with
    | EmptyString => None
    | String c s' => search_line_start pat (S pos) (Ascii.eqb c LF) s'
    end.

Definition get_table_start (readme table_name : string)
  : result (string * nat) :=
  if all_chars (λ c, negb (is_re_special c)) table_name then
    match search_line_start (table_name +:+ " - ") 0 true readme with
    | Some start => Ret (table_name, start)
    | None => Raise AttributeError
    end
  else Raise PatternNotLiteral.

Definition get_table_end (table_starts : list (string * nat))
    (last_table_name : string) (i : nat) (table_info : string * nat)
  : result (string * nat * option nat) :=
  let '(table_name, table_start) := table_info in
  if bool_decide (table_name = last_table_name)
  then Ret (table_name, table_start, None)
  else
    match table_starts !! (i + 1) with
    | Some (_, next_start) => Ret (table_name, table_start, Some next_start)
    | None => Raise IndexError
    end.

Definition enumerate {A : Type} (xs : list A) : list (nat * A) :=
  imap pair xs.

(** The loop that fills [schemas]: a later table of the same name replaces
    the earlier entry. *)
Fixpoint fill_schemas (readme : string)
    (table_info : list (string * nat * option nat))
    (schemas : gmap string StringIO) : result (gmap string StringIO) :=
  match table_info with
  | [] => Ret schemas
  | (table_name, table_start, table_end) :: table_info' =>
      let readme_fragment := slice readme table_start table_end in
      schema ← extract_schema readme_fragment;
      fill_schemas readme table_info' (<[table_name := schema]> schemas)
  end.

(** [extract_table_schemas] on the decoded text of README.TXT. *)
Definition extract_table_schemas (readme : string)
  : result (gmap string StringIO) :=
  let table_names := findall_table_names 0 true readme in
  table_starts ← map_result (get_table_start readme) table_names;
  last_table_name ←
    match last table_names with
    | Some table_name => Ret table_name
    | None => Raise IndexError
    end;
  table_info ←
    map_result (λ '(i, info), get_table_end table_starts last_table_name i info)
               (enumerate table_starts);
  fill_schemas readme table_info ∅.

(** ** Table Materializer: [ensure_table_exists] *)

(** [sqlalchemy.Column(name, type)] *)
Record Column : Set := {
  column_name : string;
  column_type : types.t
}.

(** A [sqlalchemy.Table] object.  [table_id] is the identity of the Python
    object: two handles are the same object when their ids are equal. *)
Record Table : Set := {
  table_id : nat;
  table_name : string;
  table_columns : list Column
}.

(** [sqlalchemy.MetaData]: the tables registered in this object. *)
Record MetaData : Set := {
  tables : gmap string Table
}.

(** What [ensure_table_exists] does to the outside, in order. *)
Inductive event : Set :=
| debug_already_exists (table_name : string)
| info_created (table_name : string)
| sql_has_table (table_name : string)
| sql_create_table (table_name : string) (columns : list Column).

(** The state the calls share: the tables of the database behind the
    connection, the tables that this database takes ([accepts name columns]
    tells whether it carries out CREATE TABLE for that name and these
    columns, or refuses the statement), the next free object identity, and
    the events so far. *)
Record World : Set := {
  database : gmap string (list Column);
  accepts : string → list Column → bool;
  next_id : nat;
  trace : list event
}.

Definition emit (e : event) (w : World) : World :=
  {| database := database w; accepts := accepts w; next_id := next_id w;
     trace := trace w ++ [e] |}.

(** [MetaData(connection)]: a new object bound to the connection.  It is
    not asked to reflect the database, so it starts with no table. *)
Definition MetaData_new : MetaData := {| tables := ∅ |}.

(** A column added to a table that has a column of the same name takes the
    place of that column; any other column is added at the end.  (This is
    the column collection of the sqlalchemy releases that have
    [MetaData(connection)], the ones before 2.0.) *)
Fixpoint replace_column (column : Column) (columns : list Column)
  : list Column :=
  match columns with
  | [] => [column]
  | c :: columns' =>
      if bool_decide (column_name c = column_name column)
      then column :: columns'
      else c :: replace_column column columns'
  end.

(** The columns of a table built from [columns], added one after the
    other. *)
Definition collect_columns (columns : list Column) : list Column :=
  foldl (λ collected column, replace_column column collected) [] columns.

(** [Table(name, metadata, *columns)]: a new object, registered in
    [metadata]. *)
Definition Table_new (name : string) (metadata : MetaData)
    (columns : list Column) (w : World) : Table * MetaData * World :=
  let table := {| table_id := next_id w; table_name := name;
                  table_columns := collect_columns columns |} in
  (table,
   {| tables := <[name := table]> (tables metadata) |},
   {| database := database w; accepts := accepts w;
      next_id := S (next_id w); trace := trace w |}).

(** [metadata.create_all()] with its default [checkfirst=True]: each table
    of [metadata] is looked up in the database and created when absent.
    The database may refuse the statement. *)
Definition create_one (w : World) (table : Table) : result World :=
  let w := emit (sql_has_table (table_name table)) w in
  match database w !! table_name table with
  | Some _ => Ret w
  | None =>
      if accepts w (table_name table) (table_columns table)
      then
        Ret (emit (sql_create_table (table_name table) (table_columns table))
               {| database :=
                    <[table_name table := table_columns table]> (database w);
                  accepts := accepts w;
                  next_id := next_id w; trace := trace w |})
      else Raise DatabaseError
  end.

Fixpoint create_tables (w : World) (tables : list Table) : result World :=
  match tables with
  | [] => Ret w
  | table :: tables' => w ← create_one w table; create_tables w tables'
  end.

Definition create_all (metadata : MetaData) (w : World) : result World :=
  create_tables w (snd <$> map_to_list (tables metadata)).

Definition build_column (row : Row.t) : result Column :=
  type ← get_field_type (Row.field_type row);
  Ret {| column_name := Row.column row; column_type := type |}.

(** [ensure_table_exists(table_name, table_schema, connection)]: the handle
    returned, the schema stream as the call leaves it, and the new state. *)
Definition ensure_table_exists (table_name : string) (table_schema : StringIO)
    (w : World) : result (Table * StringIO * World) :=
  let metadata := MetaData_new in
  match tables metadata !! table_name with
  | Some table =>
      Ret (table, table_schema, emit (debug_already_exists table_name) w)
  | None =>
      let table_schema := seek0 table_schema in
      let '(schema_reader, table_schema) := read_rows table_schema in
      columns ← map_result build_column schema_reader;
      let '(table, metadata, w) := Table_new table_name metadata columns w in
      w ← create_all metadata w;
      Ret (table, table_schema, emit (info_created table_name) w)
  end.

(** ** Load Orchestrator: the pure steps of [load_table] *)

Definition file_is_for_table (name file_name : string) : bool :=
  if bool_decide (file_name = lower name +:+ ".txt") then true
  else startswith (lower name +:+ "_") file_name.

(** [tuple(filter(file_is_for_table, input_zip.namelist()))] *)
Definition data_file_names (name : string) (namelist : list string)
  : list string :=
  List.filter (file_is_for_table name) namelist.

(** [[(item if item != '*' else '') for item in raw_row]] *)
Definition output_row (raw_row : list string) : list string :=
  (λ item, if bool_decide (item ≠ "*") then item else "") <$> raw_row.

(** ** Predicates and examples of the statements *)

(** The characters that [str] writes. *)
Definition is_int_char (c : ascii) : bool := is_digit c || Ascii.eqb c "-".

Definition not_char (a : ascii) (c : ascii) : bool := negb (Ascii.eqb c a).

(** The characters that [int] reads: white space, a sign, digits and the
    underscore. *)
Definition is_int_text_char (c : ascii) : bool :=
  is_int_space c || is_digit c || Ascii.eqb c "_" || Ascii.eqb c "+"
  || Ascii.eqb c "-".

(** The pieces written one after the other, with a comma and the blanks
    [blanks] between two of them. *)
Fixpoint comma_join (blanks : string) (pieces : list string) : string :=
  match pieces with
  | [] => EmptyString
  | piece :: pieces' =>
      match pieces' with
      | [] => piece
      | _ :: _ => piece +:+ String "," (blanks +:+ comma_join blanks pieces')
      end
  end.

(** [s] starts with a character of the class [p]. *)
Definition head_is (p : ascii → bool) (s : string) : bool :=
  match s with
  | String a _ => p a
  | EmptyString => false
  end.

Definition is_varchar (type : string) : Prop :=
  type = "VARCHAR" ∨ type = "VARCHAR2".

(** A token of two characters at least, and two runs of digits. *)
Definition groups_ok (field_type start_column end_column : string) : Prop :=
  2 ≤ String.length field_type ∧
  (start_column ≠ EmptyString ∧ all_chars is_digit start_column = true) ∧
  (end_column ≠ EmptyString ∧ all_chars is_digit end_column = true).

(** [row] is the row written for the match [m]: with [(start:end)] the pair
    of numbers that the match read, it holds [start] and [end - start + 1]. *)
Definition row_of_match (m : Match) (row : Row.t) : Prop :=
  ∃ start end_ : Z,
    (0 ≤ start)%Z ∧ (0 ≤ end_)%Z ∧
    int (group_start_column m) = Ret start ∧
    int (group_end_column m) = Ret end_ ∧
    row = {| Row.column := group_field_name m;
             Row.start := str start;
             Row.length := str (end_ - start + 1);
             Row.field_type := group_field_type m |}.

(** The layout fragment of the specification's example. *)
Definition PERSON_readme : string :=
  "PERSON - description" +:+ String LF
  ("FIRST_NAME          NOT NULL VARCHAR2(20)    (1:20)" +:+ String LF
  ("AGE                          NUMBER(3)        (21:23)" +:+ String LF "")).

(** The schema of the table PERSON of the specification's example, as
    [extract_table_schemas] leaves it, and after it has been read. *)
Definition PERSON_rows : list Row.t :=
  [ {| Row.column := "FIRST_NAME"; Row.start := "1";
       Row.length := "20"; Row.field_type := "VARCHAR2(20)" |};
    {| Row.column := "AGE"; Row.start := "21";
       Row.length := "3"; Row.field_type := "NUMBER(3)" |} ].

Definition PERSON_columns : list Column :=
  [ {| column_name := "FIRST_NAME"; column_type := types.String 20 |};
    {| column_name := "AGE"; column_type := types.Integer |} ].

Definition PERSON_table (id : nat) : Table :=
  {| table_id := id; table_name := "PERSON"; table_columns := PERSON_columns |}.

(** A database that takes every table, and one that takes only tables
    with a column. *)
Definition accepts_all (name : string) (columns : list Column) : bool := true.

Definition accepts_columns (name : string) (columns : list Column) : bool :=
  match columns with
  | [] => false
  | _ :: _ => true
  end.


Definition empty_world : World :=
  {| database := ∅; accepts := accepts_all; next_id := 0; trace := [] |}.

Definition strict_world : World :=
  {| database := ∅; accepts := accepts_columns; next_id := 0; trace := [] |}.


(** A layout document in which the header AA stands twice, around BB. *)
Definition duplicate_readme : string :=
  "AA - first" +:+ String LF
  ("F1  VARCHAR(1)  (1:1)" +:+ String LF
  ("BB - other" +:+ String LF
  ("F2  VARCHAR(2)  (2:3)" +:+ String LF
  ("AA - second" +:+ String LF
  ("F3  VARCHAR(3)  (4:6)" +:+ String LF ""))))).

Definition duplicate_row (column start length field_type : string) : Row.t :=
  {| Row.column := column; Row.start := start; Row.length := length;
     Row.field_type := field_type |}.

(** A token of the field-declaration pattern: a capital letter and at
    least one more character, none of them white space. *)
Definition is_token (tok : string) : bool :=
  match tok with
  | String c run =>
      is_upper c && negb (is_empty run)
      && all_chars (λ c, negb (is_space c)) run
  | EmptyString => false
  end.

(** A run of white space that is not empty. *)
Definition is_spaces (w : string) : bool :=
  negb (is_empty w) && all_chars is_space w.

(** The pattern built from [table_name] is the literal text: no character
    of the name is special to [re]. *)
Definition is_literal (table_name : string) : bool :=
  all_chars (λ c, negb (is_re_special c)) table_name.

(** The matches of the header pattern with the offsets at which they
    start: the pairs [(m.group(1), m.start())] of the matches that
    [re.findall] goes through, the text starting at offset [pos]. *)
Fixpoint findall_table_headers (pos skip : nat) (bol : bool) (s : string)
  : list (string * nat) :=
  match s with
  | EmptyString => []
  | String c s' =>
      match skip with
      | S k => findall_table_headers (S pos) k (Ascii.eqb c LF) s'
      | O =>
          match (if bol then match_table_header s else None) with
          | Some table_name =>
              (table_name, pos)
              :: findall_table_headers (S pos)
                   (String.length table_name + 2) (Ascii.eqb c LF) s'
          | None => findall_table_headers (S pos) 0 (Ascii.eqb c LF) s'
          end
      end
  end.

(** The offset of the first header of that name. *)
Fixpoint first_offset (table_name : string) (headers : list (string * nat))
  : option nat :=
  match headers with
  | [] => None
  | (n, o) :: headers' =>
      if bool_decide (n = table_name) then Some o
      else first_offset table_name headers'
  end.

(** The shape of a name that the header pattern gives. *)
Definition header_name (name : string) : Prop :=
  ∃ c run, name = String c run ∧ is_upper c = true ∧ run ≠ EmptyString ∧
           all_chars (not_char " ") run = true.

(** A layout document with the two tables PERSON and ADDRESS. *)
Definition two_tables_readme : string :=
  "PERSON - people" +:+ String LF
  ("NAME  VARCHAR2(20)  (1:20)" +:+ String LF
  ("ADDRESS - where they live" +:+ String LF
  ("CITY  VARCHAR2(30)  (1:30)" +:+ String LF
  ("ZIP   NUMBER(5)     (31:35)" +:+ String LF "")))).

(** A text that the header pattern takes for a table name when [ - ]
    follows: a capital letter and at least one more character, none of them
    a space. *)
Definition is_header_name (name : string) : bool :=
  match name with
  | String c run =>
      is_upper c && negb (is_empty run) && all_chars (not_char " ") run
  | EmptyString => false
  end.

(** * Properties *)

(** ** Characters and strings *)

(** Case analysis on the 256 characters. *)
Ltac by_chars :=
  let c := fresh "c" in
  intros c; destruct c as [[] [] [] [] [] [] [] []];
  vm_compute; try reflexivity; try discriminate; intuition congruence.

Lemma all_chars_impl (p q : ascii → bool) (s : string) :
  (∀ c, p c = true → q c = true) →
  all_chars p s = true → all_chars q s = true.
Proof.
  intros Hpq. induction s as [|c s IH]; simpl; [done|].
  intros [Hc Hs]%andb_true_iff. rewrite (Hpq c Hc). simpl. auto.
Qed.

Lemma all_chars_app (p : ascii → bool) (s t : string) :
  all_chars p (s +:+ t) = all_chars p s && all_chars p t.
Proof.
  induction s as [|c s IH]; simpl; [done|].
  rewrite IH. by rewrite andb_assoc.
Qed.

Lemma span_all (p : ascii → bool) (s : string) :
  all_chars p s = true → span p s = (s, EmptyString).
Proof.
  induction s as [|c s IH]; simpl; [done|].
  intros [Hc Hs]%andb_true_iff. by rewrite Hc, (IH Hs).
Qed.

(** A greedy run stops exactly where the class stops. *)
Lemma span_app (p : ascii → bool) (s : string) (c : ascii) (t : string) :
  all_chars p s = true → p c = false →
  span p (s +:+ String c t) = (s, String c t).
Proof.
  intros Hs Hc. induction s as [|a s IH]; simpl in *.
  - by rewrite Hc.
  - apply andb_true_iff in Hs as [Ha Hs]. by rewrite Ha, (IH Hs).
Qed.

Lemma span_run_all (p : ascii → bool) (s : string) :
  all_chars p (fst (span p s)) = true.
Proof.
  induction s as [|c s IH]; simpl; [done|].
  destruct (p c) eqn:Hc; [|done].
  destruct (span p s) as [run rest]. simpl in *. by rewrite Hc.
Qed.

Lemma span_join (p : ascii → bool) (s : string) :
  fst (span p s) +:+ snd (span p s) = s.
Proof.
  induction s as [|c s IH]; simpl; [done|].
  destruct (p c); [|done].
  destruct (span p s) as [run rest]. simpl in *. by rewrite IH.
Qed.

Lemma append_assoc (s t u : string) : (s +:+ t) +:+ u = s +:+ t +:+ u.
Proof. induction s as [|c s IH]; simpl; [done|]. by rewrite IH. Qed.

Lemma append_empty_r (s : string) : s +:+ "" = s.
Proof. induction s as [|c s IH]; simpl; [done|]. by rewrite IH. Qed.

Lemma length_append (s t : string) :
  String.length (s +:+ t) = String.length s + String.length t.
Proof. induction s as [|c s IH]; simpl; [done|]. by rewrite IH. Qed.

Lemma startswith_append (p s : string) : startswith p (p +:+ s) = true.
Proof.
  induction p as [|c p IH]; simpl; [done|].
  by rewrite Ascii.eqb_refl, IH.
Qed.

Lemma startswith_spec (p s : string) :
  startswith p s = true ↔ ∃ rest, s = p +:+ rest.
Proof.
  split.
  - revert s. induction p as [|a p IH]; intros s; simpl.
    + intros _. by exists s.
    + destruct s as [|b s]; [done|].
      intros [Hab Hp]%andb_true_iff. apply Ascii.eqb_eq in Hab as ->.
      destruct (IH _ Hp) as [rest ->]. by exists rest.
  - intros [rest ->]. apply startswith_append.
Qed.

(** ** [int] reads back what [str] writes *)

Lemma digit_not_int_space : ∀ c, is_digit c = true → is_int_space c = false.
Proof. by_chars. Qed.

Lemma digit_not_underscore : ∀ c, is_digit c = true → Ascii.eqb c "_" = false.
Proof. by_chars. Qed.

Lemma uint_string_digits (d : uint) :
  all_chars is_digit (NilEmpty.string_of_uint d) = true.
Proof. induction d; simpl; auto. Qed.

Lemma digits_of_uint_string (d : uint) :
  digits_of (NilEmpty.string_of_uint d) = d.
Proof. induction d; simpl; congruence. Qed.

Lemma underscores_ok_digits (s : string) :
  all_chars is_digit s = true → underscores_ok false s = true.
Proof.
  induction s as [|c s IH]; simpl; [done|].
  intros [Hc Hs]%andb_true_iff.
  rewrite (digit_not_underscore c Hc). auto.
Qed.

Lemma int_digits_run (s : string) :
  all_chars is_digit s = true →
  span (λ c, is_digit c || Ascii.eqb c "_") s = (s, EmptyString).
Proof.
  intros Hs. apply span_all. revert Hs. apply all_chars_impl.
  intros c Hc. by rewrite Hc.
Qed.

Lemma int_sign_digit : ∀ c r,
  is_digit c = true → int_sign (String c r) = (false, String c r).
Proof. by_chars. Qed.

Lemma int_of_digits (s : string) :
  all_chars is_digit s = true → s ≠ EmptyString →
  int s = Ret (Z.of_int (Pos (digits_of s))) ∧
  int (String "-" s) = Ret (Z.of_int (Neg (digits_of s))).
Proof.
  intros Hs Hne. destruct s as [|c r]; [done|].
  pose proof Hs as [Hc Hr]%andb_true_iff.
  assert (Hok : underscores_ok true (String c r) = true).
  { simpl. rewrite (digit_not_underscore c Hc).
    by apply underscores_ok_digits. }
  unfold int. split.
  - simpl span. rewrite (digit_not_int_space c Hc). simpl snd.
    rewrite (int_sign_digit c r Hc). cbv beta iota.
    rewrite (int_digits_run _ Hs). cbv beta iota. rewrite Hok.
    reflexivity.
  - change (snd (span is_int_space (String "-" (String c r))))
      with (String "-" (String c r)).
    change (int_sign (String "-" (String c r))) with (true, String c r).
    cbv beta iota. rewrite (int_digits_run _ Hs). cbv beta iota.
    rewrite Hok. reflexivity.
Qed.

Lemma int_of_uint_string (d : uint) :
  d ≠ Nil →
  int (NilEmpty.string_of_uint d) = Ret (Z.of_int (Pos d)) ∧
  int (String "-" (NilEmpty.string_of_uint d)) = Ret (Z.of_int (Neg d)).
Proof.
  intros Hd.
  rewrite <- (digits_of_uint_string d) at 2 4.
  apply int_of_digits; [apply uint_string_digits|].
  by destruct d.
Qed.

(** [int(str(n)) == n] *)
Lemma int_str (n : Z) : int (str n) = Ret n.
Proof.
  rewrite <- (DecimalZ.of_to n) at 2. unfold str.
  destruct n as [|p|p]; [reflexivity|..]; simpl Z.to_int;
    pose proof (Unsigned.to_uint_nonnil p) as Hp;
    destruct (int_of_uint_string _ Hp) as [Hpos Hneg].
  - unfold NilZero.string_of_int, NilZero.string_of_uint.
    destruct (Pos.to_uint p); [done|..]; exact Hpos.
  - unfold NilZero.string_of_int, NilZero.string_of_uint.
    destruct (Pos.to_uint p); [done|..]; exact Hneg.
Qed.

Lemma str_chars (n : Z) : all_chars is_int_char (str n) = true.
Proof.
  assert (Hd : ∀ d, all_chars is_int_char (NilEmpty.string_of_uint d) = true).
  { intros d. apply (all_chars_impl is_digit); [|apply uint_string_digits].
    intros c Hc. unfold is_int_char. by rewrite Hc. }
  unfold str.
  destruct n as [|p|p]; [reflexivity|..]; simpl Z.to_int;
    unfold NilZero.string_of_int, NilZero.string_of_uint;
    pose proof (Unsigned.to_uint_nonnil p) as Hp;
    destruct (Pos.to_uint p) eqn:E; try done; rewrite <- E;
    simpl; by rewrite ?Hd.
Qed.

Lemma str_nonempty (n : Z) : str n ≠ EmptyString.
Proof.
  unfold str.
  destruct n as [|p|p]; [done|..]; simpl Z.to_int;
    unfold NilZero.string_of_int, NilZero.string_of_uint;
    pose proof (Unsigned.to_uint_nonnil p) as Hp;
    by destruct (Pos.to_uint p).
Qed.

(** ** The pattern of [get_field_type] on well-formed type texts *)

Lemma before_last_rparen_app (s : string) :
  all_chars (not_char ")") s = true →
  before_last_rparen (s +:+ ")") = Some s.
Proof.
  induction s as [|c s IH]; simpl; [done|].
  intros [_ Hs]%andb_true_iff. by rewrite (IH Hs).
Qed.

Lemma match_field_type_no_args (type : string) :
  type ≠ EmptyString → all_chars (not_char "(") type = true →
  match_field_type type = Some (type, None).
Proof.
  intros Hne Hty. unfold match_field_type.
  change (λ c, negb (Ascii.eqb c "(")) with (not_char "(").
  rewrite (span_all _ _ Hty). by destruct type.
Qed.

Lemma match_field_type_args (type args : string) :
  type ≠ EmptyString → all_chars (not_char "(") type = true →
  args ≠ EmptyString →
  all_chars (not_char LF) args = true →
  all_chars (not_char ")") args = true →
  match_field_type (type +:+ String "(" (args +:+ ")")) = Some (type, Some args).
Proof.
  intros Hne Hty Hargs Hlf Hrp. unfold match_field_type.
  change (λ c, negb (Ascii.eqb c "(")) with (not_char "(").
  change (λ c, negb (Ascii.eqb c LF)) with (not_char LF).
  rewrite (span_app (not_char "(") type "(" _ Hty eq_refl).
  destruct type as [|t type]; [done|]. cbv beta iota. simpl is_empty. cbv iota.
  destruct args as [|a args]; [done|]. simpl String.append.
  simpl in Hlf, Hrp.
  apply andb_true_iff in Hlf as [Ha Hlf]. apply andb_true_iff in Hrp as [_ Hrp].
  unfold not_char in Ha. apply negb_true_iff in Ha. rewrite Ha.
  rewrite span_all; [|by rewrite all_chars_app, Hlf].
  simpl fst. by rewrite (before_last_rparen_app _ Hrp).
Qed.

Lemma re_split_no_comma (s : string) :
  all_chars (not_char ",") s = true → re_split_comma false s = [s].
Proof.
  induction s as [|c s IH]; simpl; [done|].
  intros [Hc Hs]%andb_true_iff. unfold not_char in Hc.
  apply negb_true_iff in Hc. by rewrite Hc, (IH Hs).
Qed.

Lemma re_split_at_comma (a b : string) :
  all_chars (not_char ",") a = true →
  re_split_comma false (a +:+ String "," b) = a :: re_split_comma true b.
Proof.
  induction a as [|c a IH]; simpl; [done|].
  intros [Hc Ha]%andb_true_iff. unfold not_char in Hc.
  apply negb_true_iff in Hc. by rewrite Hc, (IH Ha).
Qed.

Lemma re_split_skip_spaces (ws b : string) :
  all_chars is_space ws = true →
  re_split_comma true (ws +:+ b) = re_split_comma true b.
Proof.
  induction ws as [|c ws IH]; simpl; [done|].
  intros [Hc Hws]%andb_true_iff. by rewrite Hc, (IH Hws).
Qed.

Lemma re_split_after_spaces (c : ascii) (b : string) :
  is_space c = false →
  re_split_comma true (String c b) = re_split_comma false (String c b).
Proof. intros Hc. simpl. by rewrite Hc. Qed.

Lemma int_char_not_lparen : ∀ c, is_int_char c = true → not_char "(" c = true.
Proof. by_chars. Qed.
Lemma int_char_not_rparen : ∀ c, is_int_char c = true → not_char ")" c = true.
Proof. by_chars. Qed.
Lemma int_char_not_lf : ∀ c, is_int_char c = true → not_char LF c = true.
Proof. by_chars. Qed.
Lemma int_char_not_comma : ∀ c, is_int_char c = true → not_char "," c = true.
Proof. by_chars. Qed.
Lemma int_char_not_space : ∀ c, is_int_char c = true → is_space c = false.
Proof. by_chars. Qed.

(** The pieces of [p,s] and of [p, s]. *)
Lemma re_split_two (p s ws : string) :
  all_chars is_int_char p = true → all_chars is_int_char s = true →
  s ≠ EmptyString → all_chars is_space ws = true →
  re_split_comma false (p +:+ String "," (ws +:+ s)) = [p; s].
Proof.
  intros Hp Hs Hne Hws.
  rewrite re_split_at_comma
    by (revert Hp; apply all_chars_impl, int_char_not_comma).
  rewrite (re_split_skip_spaces _ _ Hws).
  destruct s as [|c s]; [done|].
  pose proof Hs as [Hc _]%andb_true_iff.
  rewrite (re_split_after_spaces _ _ (int_char_not_space _ Hc)).
  rewrite re_split_no_comma
    by (revert Hs; apply all_chars_impl, int_char_not_comma).
  done.
Qed.

(** The groups of the pattern on [TYPE(args)] where [args] is written with
    the characters of integers, commas and spaces. *)
Lemma match_field_type_call (type args : string) :
  type ≠ EmptyString → all_chars (not_char "(") type = true →
  args ≠ EmptyString →
  all_chars (λ c, is_int_char c || Ascii.eqb c "," || Ascii.eqb c " ") args = true →
  match_field_type (type +:+ String "(" (args +:+ ")")) = Some (type, Some args).
Proof.
  intros ?? ? Hargs. apply match_field_type_args; try done;
    revert Hargs; apply all_chars_impl; by_chars.
Qed.

Lemma args_chars_int (n : Z) :
  all_chars (λ c, is_int_char c || Ascii.eqb c "," || Ascii.eqb c " ") (str n) = true.
Proof.
  apply (all_chars_impl is_int_char); [|apply str_chars].
  intros c Hc. by rewrite Hc.
Qed.

(** ** C1: the rules of the Type Mapper *)

Lemma get_field_type_one_arg (type : string) (n : Z) :
  type ≠ EmptyString → all_chars (not_char "(") type = true →
  match_field_type (type +:+ String "(" (str n +:+ ")")) = Some (type, Some (str n)).
Proof.
  intros. apply match_field_type_call; auto using str_nonempty, args_chars_int.
Qed.

Lemma get_field_type_two_args (type ws : string) (p s : Z) :
  type ≠ EmptyString → all_chars (not_char "(") type = true →
  all_chars (Ascii.eqb " ") ws = true →
  match_field_type (type +:+ String "(" ((str p +:+ String "," (ws +:+ str s)) +:+ ")"))
  = Some (type, Some (str p +:+ String "," (ws +:+ str s))).
Proof.
  intros ?? Hws. apply match_field_type_call; auto.
  - pose proof (str_nonempty p). by destruct (str p).
  - rewrite all_chars_app. simpl. rewrite all_chars_app.
    rewrite !args_chars_int. simpl. rewrite andb_true_r.
    revert Hws. apply all_chars_impl. by_chars.
Qed.

Lemma get_field_type_VARCHAR (type : string) (n : Z) :
  type = "VARCHAR" ∨ type = "VARCHAR2" →
  get_field_type (type +:+ String "(" (str n +:+ ")")) = Ret (types.String n).
Proof.
  intros Hty. unfold get_field_type.
  rewrite get_field_type_one_arg by (by destruct Hty as [-> | ->]).
  destruct Hty as [-> | ->]; cbn [bool_decide]; rewrite int_str; reflexivity.
Qed.

Lemma get_field_type_NUMBER_1 (n : Z) :
  get_field_type ("NUMBER" +:+ String "(" (str n +:+ ")"))
  = Ret (if (n <? 10)%Z then types.Integer else types.BigInteger).
Proof.
  unfold get_field_type. rewrite get_field_type_one_arg by done.
  change (bool_decide ("NUMBER" = "VARCHAR") || bool_decide ("NUMBER" = "VARCHAR2"))
    with false.
  change (bool_decide ("NUMBER" = "NUMBER")) with true. cbv iota.
  rewrite re_split_no_comma
    by (apply (all_chars_impl is_int_char);
        [apply int_char_not_comma | apply str_chars]).
  simpl map_result. rewrite int_str. simpl. by destruct (n <? 10)%Z.
Qed.

Lemma get_field_type_NUMBER_2 (ws : string) (p s : Z) :
  all_chars (Ascii.eqb " ") ws = true →
  get_field_type ("NUMBER" +:+ String "(" ((str p +:+ String "," (ws +:+ str s)) +:+ ")"))
  = Ret (types.Numeric p s).
Proof.
  intros Hws. unfold get_field_type. rewrite get_field_type_two_args by done.
  change (bool_decide ("NUMBER" = "VARCHAR") || bool_decide ("NUMBER" = "VARCHAR2"))
    with false.
  change (bool_decide ("NUMBER" = "NUMBER")) with true. cbv iota.
  rewrite re_split_two; auto using str_chars, str_nonempty.
  - simpl map_result. rewrite !int_str. reflexivity.
  - revert Hws. apply all_chars_impl. by_chars.
Qed.

(** C1.  [get_field_type] follows the rules of the Type Mapper.  For every
    integer [n], written in decimal by [str]: VARCHAR(n) and VARCHAR2(n)
    give STRING(n); NUMBER gives BIGINT; NUMBER(n) gives INTEGER when
    [n < 10] and BIGINT otherwise; NUMBER(p,s), also written NUMBER(p, s),
    gives NUMERIC(p, s); DATE gives DATE.  The six examples of the
    specification are instances. *)
Theorem C1_get_field_type_rules :
  (∀ n : Z, get_field_type ("VARCHAR(" +:+ str n +:+ ")") = Ret (types.String n)) ∧
  (∀ n : Z, get_field_type ("VARCHAR2(" +:+ str n +:+ ")") = Ret (types.String n)) ∧
  get_field_type "NUMBER" = Ret types.BigInteger ∧
  (∀ n : Z, get_field_type ("NUMBER(" +:+ str n +:+ ")")
            = Ret (if (n <? 10)%Z then types.Integer else types.BigInteger)) ∧
  (∀ p s : Z, get_field_type ("NUMBER(" +:+ str p +:+ "," +:+ str s +:+ ")")
              = Ret (types.Numeric p s)) ∧
  (∀ p s : Z, get_field_type ("NUMBER(" +:+ str p +:+ ", " +:+ str s +:+ ")")
              = Ret (types.Numeric p s)) ∧
  get_field_type "DATE" = Ret types.Date ∧
  get_field_type "VARCHAR(12)" = Ret (types.String 12) ∧
  get_field_type "VARCHAR2(4000)" = Ret (types.String 4000) ∧
  get_field_type "NUMBER(9)" = Ret types.Integer ∧
  get_field_type "NUMBER(10)" = Ret types.BigInteger ∧
  get_field_type "NUMBER(10,2)" = Ret (types.Numeric 10 2).
Proof.
  repeat split; try (vm_compute; reflexivity); intros.
  - apply (get_field_type_VARCHAR "VARCHAR"). by left.
  - apply (get_field_type_VARCHAR "VARCHAR2"). by right.
  - apply get_field_type_NUMBER_1.
  - rewrite <- (get_field_type_NUMBER_2 "" p s eq_refl).
    simpl. by rewrite !append_assoc.
  - rewrite <- (get_field_type_NUMBER_2 " " p s eq_refl).
    simpl. by rewrite !append_assoc.
Qed.

(** ** C5: when and how [get_field_type] fails *)

Lemma int_raises (s : string) (e : exn) : int s = Raise e → e = ValueError.
Proof.
  unfold int. destruct (int_sign _) as [negative s2].
  destruct (span _ s2) as [run rest].
  destruct (underscores_ok true run && all_chars is_int_space rest);
    congruence.
Qed.

Lemma map_int_raises (pieces : list string) (e : exn) :
  map_result int pieces = Raise e ↔
  e = ValueError ∧ ∃ piece, piece ∈ pieces ∧ int piece = Raise ValueError.
Proof.
  revert e. induction pieces as [|x xs IH]; intros e; simpl.
  - split; [done|]. intros [_ (piece & []%elem_of_nil & _)].
  - destruct (int x) as [n|e'] eqn:Hx; simpl.
    + destruct (map_result int xs) as [ns|e''] eqn:Hxs; simpl.
      * split; [done|]. intros [-> (piece & Hin & Hp)].
        apply elem_of_cons in Hin as [-> | Hin]; [congruence|].
        assert (Ret ns = Raise ValueError) by (apply IH; eauto). done.
      * destruct (proj1 (IH e'') eq_refl) as [-> (piece & ? & ?)]. split.
        -- intros [= <-]. split; [done|]. exists piece.
           split; [by right | done].
        -- by intros [-> _].
    + pose proof (int_raises _ _ Hx) as ->. split.
      * intros [= <-]. split; [done|]. exists x. split; [by left | done].
      * by intros [-> _].
Qed.

(** The group [type] is the text before the first [(]; there is no match
    exactly when that text is empty. *)
Lemma match_field_type_type (text type : string) (args : option string) :
  match_field_type text = Some (type, args) →
  type ≠ EmptyString ∧ all_chars (not_char "(") type = true ∧
  ∃ rest, text = type +:+ rest ∧
          (rest = EmptyString ∨ ∃ r, rest = String "(" r).
Proof.
  unfold match_field_type.
  change (λ c, negb (Ascii.eqb c "(")) with (not_char "(").
  pose proof (span_run_all (not_char "(") text) as Hall.
  pose proof (span_join (not_char "(") text) as Hjoin.
  assert (Hrest : snd (span (not_char "(") text) = EmptyString ∨
                  ∃ r, snd (span (not_char "(") text) = String "(" r).
  { clear. induction text as [|c s IH]; simpl; [by left|].
    destruct (not_char "(" c) eqn:Hc.
    - by destruct (span (not_char "(") s).
    - right. exists s. unfold not_char in Hc.
      apply negb_false_iff, Ascii.eqb_eq in Hc. by subst. }
  destruct (span (not_char "(") text) as [ty rest]. simpl in *.
  destruct ty as [|t ty]; [done|]. simpl is_empty. cbv iota.
  intros [= <- _]. repeat split; try done. by exists rest.
Qed.

Lemma match_field_type_none (text : string) :
  match_field_type text = None ↔
  text = EmptyString ∨ ∃ r, text = String "(" r.
Proof.
  unfold match_field_type. destruct text as [|c s]; simpl.
  - split; [by left | done].
  - destruct (Ascii.eqb c "(") eqn:Hc; simpl.
    + apply Ascii.eqb_eq in Hc as ->. split; [|done]. right. by exists s.
    + destruct (span _ s) as [run rest]. simpl. split; [done|].
      intros [? | [r [= -> _]]]; [done|]. by rewrite Ascii.eqb_refl in Hc.
Qed.

(** An unfolding of [get_field_type] by the groups of its pattern. *)
Lemma get_field_type_cases (text : string) :
  match match_field_type text with
  | None => get_field_type text = Raise AttributeError
  | Some (type, args) =>
      (is_varchar type ∧
       get_field_type text =
         match args with
         | None => Raise TypeError
         | Some a => length ← int a; Ret (types.String length)
         end) ∨
      (type = "NUMBER" ∧
       get_field_type text =
         match args with
         | None => Ret types.BigInteger
         | Some a =>
             number_args ← map_result int (re_split_comma false a);
             match number_args with
             | [length] =>
                 if (length <? 10)%Z then Ret types.Integer
                 else Ret types.BigInteger
             | [precision; scale] => Ret (types.Numeric precision scale)
             | _ => Raise NotImplementedError
             end
         end) ∨
      (type = "DATE" ∧ get_field_type text = Ret types.Date) ∨
      (¬ is_varchar type ∧ type ≠ "NUMBER" ∧ type ≠ "DATE" ∧
       get_field_type text = Raise NotImplementedError)
  end.
Proof.
  unfold get_field_type, is_varchar.
  destruct (match_field_type text) as [[type args]|]; [|done].
  destruct (decide (type = "VARCHAR")) as [->|H1];
    [left; split; [by left | reflexivity] |].
  destruct (decide (type = "VARCHAR2")) as [->|H2];
    [left; split; [by right | reflexivity] |].
  rewrite !(bool_decide_eq_false_2 (type = _)) by done. simpl orb. cbv iota.
  right.
  destruct (decide (type = "NUMBER")) as [->|H3];
    [left; split; [done | reflexivity] |].
  rewrite (bool_decide_eq_false_2 (type = "NUMBER")) by done.
  right.
  destruct (decide (type = "DATE")) as [->|H4];
    [left; split; [done | reflexivity] |].
  rewrite (bool_decide_eq_false_2 (type = "DATE")) by done.
  right. repeat split; try done. by intros [? | ?].
Qed.

Lemma map_result_length {A B : Type} (f : A → result B) (xs : list A)
    (ys : list B) :
  map_result f xs = Ret ys → length ys = length xs.
Proof.
  revert ys. induction xs as [|x xs IH]; intros ys; simpl.
  - by intros [= <-].
  - destruct (f x) as [y|]; simpl; [|done].
    destruct (map_result f xs) as [ys'|]; simpl; [|done].
    intros [= <-]. simpl. by rewrite (IH ys').
Qed.

Lemma re_split_comma_length (skipping : bool) (s : string) :
  1 ≤ length (re_split_comma skipping s).
Proof.
  revert skipping. induction s as [|c s IH]; intros skipping; simpl; [done|].
  destruct (skipping && is_space c); [apply IH|].
  destruct (Ascii.eqb c ","); [simpl; lia|].
  destruct (re_split_comma false s); simpl; lia.
Qed.

Lemma NotImplementedError_iff (text : string) :
  get_field_type text = Raise NotImplementedError ↔
  ∃ type args, match_field_type text = Some (type, args) ∧
    ((¬ is_varchar type ∧ type ≠ "NUMBER" ∧ type ≠ "DATE") ∨
     (type = "NUMBER" ∧ ∃ a ns, args = Some a ∧
        map_result int (re_split_comma false a) = Ret ns ∧ 2 < length ns)).
Proof.
  pose proof (get_field_type_cases text) as Hc.
  destruct (match_field_type text) as [[type args]|].
  2:{ rewrite Hc. split; [done | by intros (? & ? & ? & ?)]. }
  destruct Hc as [[Hv ->] | [[-> ->] | [[-> ->] | (Hv & Hn & Hd & ->)]]].
  - split.
    + destruct args as [a|]; [|done].
      destruct (int a) as [|e] eqn:Ha; [done|].
      by rewrite (int_raises _ _ Ha).
    + intros (? & ? & [= <- <-] & [(? & _) | (-> & _)]); [done|].
      by destruct Hv.
  - split.
    + destruct args as [a|]; [|done].
      destruct (map_result int (re_split_comma false a)) as [ns|] eqn:Hns;
        [|by apply map_int_raises in Hns as [-> _]].
      intros Hraise. exists "NUMBER", (Some a). split; [done|]. right.
      split; [done|]. exists a, ns. repeat split; try done.
      pose proof (map_result_length _ _ _ Hns) as Hlen.
      pose proof (re_split_comma_length false a).
      destruct ns as [|n1 [|n2 [|n3 ns]]]; simpl in *; try lia.
      * by destruct (n1 <? 10)%Z.
      * done.
    + intros (? & ? & [= <- <-] & [(_ & ? & _) | (_ & a & ns & -> & -> & Hlen)]);
        [done|].
      destruct ns as [|n1 [|n2 [|n3 ns]]]; simpl in *; try lia. done.
  - split; [done|].
    intros (? & ? & [= <- <-] & [(_ & _ & ?) | ([=] & _)]). done.
  - split; [|done]. intros _. exists type, args. split; [done|]. by left.
Qed.

Lemma TypeError_iff (text : string) :
  get_field_type text = Raise TypeError ↔
  ∃ type, is_varchar type ∧ match_field_type text = Some (type, None).
Proof.
  pose proof (get_field_type_cases text) as Hc.
  destruct (match_field_type text) as [[type args]|].
  2:{ rewrite Hc. split; [done | by intros (? & ? & ?)]. }
  destruct Hc as [[Hv ->] | [[-> ->] | [[-> ->] | (Hv & Hn & Hd & ->)]]].
  - destruct args as [a|].
    + split; [|by intros (? & ? & [=])].
      destruct (int a) as [|e] eqn:Ha; [done|].
      by rewrite (int_raises _ _ Ha).
    + split; [|done]. intros _. by exists type.
  - split.
    + destruct args as [a|]; [|done].
      destruct (map_result int _) as [ns|e] eqn:Hns; simpl.
      * destruct ns as [|n1 [|n2 [|n3 ns]]]; try done.
        by destruct (n1 <? 10)%Z.
      * apply map_int_raises in Hns as [-> _]. done.
    + intros (? & Hv & [= <- _]). by destruct Hv.
  - split; [done|]. intros (? & Hv & [= <- _]). by destruct Hv.
  - split; [done|]. intros (? & ? & [= <- _]). done.
Qed.

Lemma ValueError_iff (text : string) :
  get_field_type text = Raise ValueError ↔
  ∃ type a, match_field_type text = Some (type, Some a) ∧
    ((is_varchar type ∧ int a = Raise ValueError) ∨
     (type = "NUMBER" ∧
      ∃ piece, piece ∈ re_split_comma false a ∧ int piece = Raise ValueError)).
Proof.
  pose proof (get_field_type_cases text) as Hc.
  destruct (match_field_type text) as [[type args]|].
  2:{ rewrite Hc. split; [done | by intros (? & ? & ? & ?)]. }
  destruct Hc as [[Hv ->] | [[-> ->] | [[-> ->] | (Hv & Hn & Hd & ->)]]].
  - destruct args as [a|]; [|split; [done | by intros (? & ? & [=] & _)]].
    split.
    + destruct (int a) as [|e] eqn:Ha; [done|].
      pose proof (int_raises _ _ Ha) as ->. intros _.
      exists type, a. split; [done|]. by left.
    + intros (ty & a' & [= <- <-] & [[_ Ha] | [-> _]]).
      * by rewrite Ha.
      * by destruct Hv.
  - destruct args as [a|]; [|split; [done | by intros (? & ? & [=] & _)]].
    destruct (map_result int (re_split_comma false a)) as [ns|e] eqn:Hns.
    + split.
      * destruct ns as [|n1 [|n2 [|n3 ns]]]; try done.
        simpl. by destruct (n1 <? 10)%Z.
      * intros (ty & a' & [= <- <-] & [[Hv _] | [_ Hp]]).
        { by destruct Hv. }
        assert (Hr : map_result int (re_split_comma false a) = Raise ValueError)
          by (by apply map_int_raises).
        congruence.
    + apply map_int_raises in Hns as [-> Hp]. split; [|done].
      intros _. exists "NUMBER", a. split; [done|]. by right.
  - split; [done|].
    intros (ty & a' & [= <- _] & [[Hv _] | [? _]]); [by destruct Hv | done].
  - split; [done|].
    intros (ty & a' & [= <- _] & [[? _] | [? _]]); done.
Qed.

Lemma get_field_type_raises (text : string) (e : exn) :
  get_field_type text = Raise e →
  e = NotImplementedError ∨ e = TypeError ∨ e = ValueError ∨
  (e = AttributeError ∧ match_field_type text = None).
Proof.
  pose proof (get_field_type_cases text) as Hc.
  destruct (match_field_type text) as [[type args]|].
  2:{ rewrite Hc. intros [= <-]. by repeat right. }
  destruct Hc as [[Hv ->] | [[-> ->] | [[-> ->] | (Hv & Hn & Hd & ->)]]].
  - destruct args as [a|]; [|intros [= <-]; auto].
    destruct (int a) as [|e'] eqn:Ha; [done|].
    rewrite (int_raises _ _ Ha). intros [= <-]. auto.
  - destruct args as [a|]; [|done].
    destruct (map_result int (re_split_comma false a)) as [ns|e'] eqn:Hns.
    + destruct ns as [|n1 [|n2 [|n3 ns]]]; simpl; try (intros [= <-]; auto).
      by destruct (n1 <? 10)%Z.
    + apply map_int_raises in Hns as [-> _]. intros [= <-]. auto.
  - done.
  - intros [= <-]. auto.
Qed.

Lemma AttributeError_iff (text : string) :
  get_field_type text = Raise AttributeError ↔
  text = EmptyString ∨ ∃ r, text = String "(" r.
Proof.
  rewrite <- match_field_type_none. split.
  - intros H. by destruct (get_field_type_raises _ _ H) as [?|[?|[?|[_ ?]]]].
  - intros H. pose proof (get_field_type_cases text) as Hc.
    by rewrite H in Hc.
Qed.

Lemma match_field_type_prefix (type : string) (r : string) :
  type ≠ EmptyString → all_chars (not_char "(") type = true →
  ∃ args, match_field_type (type +:+ String "(" r) = Some (type, args).
Proof.
  intros Hne Hty. unfold match_field_type.
  change (λ c, negb (Ascii.eqb c "(")) with (not_char "(").
  rewrite (span_app (not_char "(") type "(" r Hty eq_refl).
  destruct type; [done|]. simpl is_empty. cbv iota. eauto.
Qed.

Lemma before_last_rparen_none (s : string) :
  all_chars (not_char ")") s = true → before_last_rparen s = None.
Proof.
  induction s as [|c s IH]; simpl; [done|].
  intros [Hc Hs]%andb_true_iff. rewrite (IH Hs).
  unfold not_char in Hc. apply negb_true_iff in Hc. by rewrite Hc.
Qed.

Lemma all_chars_span_run (p q : ascii → bool) (s : string) :
  all_chars p s = true → all_chars p (fst (span q s)) = true.
Proof.
  induction s as [|c s IH]; simpl; [done|].
  intros [Hc Hs]%andb_true_iff. destruct (q c); [|done].
  specialize (IH Hs). destruct (span q s). simpl in *. by rewrite Hc.
Qed.

(** Without a closing parenthesis the group [args] takes no part. *)
Lemma match_field_type_unclosed (type r : string) :
  type ≠ EmptyString → all_chars (not_char "(") type = true →
  all_chars (not_char ")") r = true →
  match_field_type (type +:+ String "(" r) = Some (type, None).
Proof.
  intros Hne Hty Hr. unfold match_field_type.
  change (λ c, negb (Ascii.eqb c "(")) with (not_char "(").
  rewrite (span_app (not_char "(") type "(" r Hty eq_refl).
  destruct type; [done|]. simpl is_empty. cbv iota.
  destruct r as [|c r]; [done|].
  destruct (Ascii.eqb c LF); [done|].
  simpl in Hr. apply andb_true_iff in Hr as [_ Hr].
  by rewrite before_last_rparen_none by (by apply all_chars_span_run).
Qed.

Lemma match_field_type_text (text type : string) (args : option string) :
  match_field_type text = Some (type, args) →
  (text = type ∧ args = None) ∨ ∃ r, text = type +:+ String "(" r.
Proof.
  intros Hm.
  destruct (match_field_type_type _ _ _ Hm) as (Hne & Hty & rest & -> & Hrest).
  destruct Hrest as [-> | [r ->]]; [left | right; by exists r].
  rewrite append_empty_r in Hm |- *.
  rewrite match_field_type_no_args in Hm by done. by injection Hm as <-.
Qed.

Lemma match_field_type_of_text (text type : string) :
  type ≠ EmptyString → all_chars (not_char "(") type = true →
  text = type ∨ (∃ r, text = type +:+ String "(" r) →
  ∃ args, match_field_type text = Some (type, args).
Proof.
  intros Hne Hty [-> | [r ->]].
  - exists None. by apply match_field_type_no_args.
  - by apply match_field_type_prefix.
Qed.

(** *** Texts that fail *)

Lemma map_int_str (ns : list Z) : map_result int (str <$> ns) = Ret ns.
Proof.
  induction ns as [|n ns IH]; [done|].
  cbn [fmap list_fmap map_result]. rewrite int_str. cbn [mbind result_bind].
  change (list_fmap Z string str ns) with (str <$> ns). by rewrite IH.
Qed.

Lemma comma_join_cons (blanks piece next : string) (pieces : list string) :
  comma_join blanks (piece :: next :: pieces)
  = piece +:+ String "," (blanks +:+ comma_join blanks (next :: pieces)).
Proof. reflexivity. Qed.

Lemma comma_join_head (blanks piece : string) (pieces : list string) :
  ∃ tail, comma_join blanks (piece :: pieces) = piece +:+ tail.
Proof.
  destruct pieces as [|next pieces].
  - exists EmptyString. cbn [comma_join]. by rewrite append_empty_r.
  - eexists. apply comma_join_cons.
Qed.

Lemma comma_join_chars (blanks : string) (ns : list Z) :
  all_chars (Ascii.eqb " ") blanks = true →
  all_chars (λ c, is_int_char c || Ascii.eqb c "," || Ascii.eqb c " ")
    (comma_join blanks (str <$> ns)) = true.
Proof.
  intros Hblanks. induction ns as [|n ns IH]; [done|].
  destruct ns as [|n' ns]; [apply args_chars_int|].
  cbn [fmap list_fmap] in IH |- *. rewrite comma_join_cons.
  rewrite all_chars_app, args_chars_int. cbn [all_chars andb].
  rewrite all_chars_app, IH, andb_true_r.
  rewrite (all_chars_impl (Ascii.eqb " ") _ blanks); [done | | done].
  by_chars.
Qed.

Lemma comma_join_nonempty (blanks : string) (n : Z) (ns : list Z) :
  comma_join blanks (str <$> n :: ns) ≠ EmptyString.
Proof.
  rewrite fmap_cons.
  destruct (comma_join_head blanks (str n) (str <$> ns)) as [tail ->].
  pose proof (str_nonempty n). by destruct (str n).
Qed.

(** [re.split] gives back the integers that were joined. *)
Lemma re_split_comma_join (blanks : string) (n : Z) (ns : list Z) :
  all_chars (Ascii.eqb " ") blanks = true →
  re_split_comma false (comma_join blanks (str <$> n :: ns)) = str <$> n :: ns.
Proof.
  intros Hblanks. revert n. induction ns as [|n' ns IH]; intros n.
  - rewrite fmap_cons, fmap_nil. cbn [comma_join]. apply re_split_no_comma.
    apply (all_chars_impl is_int_char);
      [apply int_char_not_comma | apply str_chars].
  - rewrite fmap_cons. specialize (IH n'). rewrite fmap_cons in IH |- *.
    rewrite comma_join_cons.
    rewrite re_split_at_comma
      by (apply (all_chars_impl is_int_char);
          [apply int_char_not_comma | apply str_chars]).
    rewrite re_split_skip_spaces
      by (revert Hblanks; apply all_chars_impl; by_chars).
    f_equal. rewrite <- IH at 2.
    destruct (comma_join_head blanks (str n') (str <$> ns)) as [tail ->].
    pose proof (str_nonempty n') as Hne. pose proof (str_chars n') as Hc.
    destruct (str n') as [|c s']; [done|].
    apply andb_true_iff in Hc as [Hc _].
    exact (re_split_after_spaces c _ (int_char_not_space c Hc)).
Qed.

(** NUMBER with three integers or more. *)
Lemma get_field_type_NUMBER_many (blanks : string) (ns : list Z) :
  all_chars (Ascii.eqb " ") blanks = true →
  2 < length ns →
  get_field_type
    ("NUMBER" +:+ String "(" (comma_join blanks (str <$> ns) +:+ ")"))
  = Raise NotImplementedError.
Proof.
  intros Hblanks Hlen. destruct ns as [|n ns]; [simpl in Hlen; lia|].
  unfold get_field_type.
  rewrite match_field_type_call;
    [|done|done|apply comma_join_nonempty|by apply comma_join_chars].
  change (bool_decide ("NUMBER" = "VARCHAR") || bool_decide ("NUMBER" = "VARCHAR2"))
    with false.
  change (bool_decide ("NUMBER" = "NUMBER")) with true. cbv iota.
  rewrite (re_split_comma_join _ _ _ Hblanks), map_int_str.
  cbn [mbind result_bind].
  destruct ns as [|n2 [|n3 ns]]; simpl in Hlen; try lia. reflexivity.
Qed.

(** A type name that is none of the four. *)
Lemma get_field_type_other_name (type text : string) :
  type ≠ EmptyString → all_chars (not_char "(") type = true →
  ¬ is_varchar type → type ≠ "NUMBER" → type ≠ "DATE" →
  text = type ∨ (∃ r, text = type +:+ String "(" r) →
  get_field_type text = Raise NotImplementedError.
Proof.
  intros Hne Hty Hv Hn Hd Htext.
  destruct (match_field_type_of_text text type Hne Hty Htext) as [args Hm].
  pose proof (get_field_type_cases text) as Hc. rewrite Hm in Hc.
  by destruct Hc as [[? _] | [[? _] | [[? _] | (_ & _ & _ & ?)]]].
Qed.

(** VARCHAR and VARCHAR2 without an argument list, or with one that is not
    closed. *)
Lemma get_field_type_VARCHAR_bare (type r : string) :
  is_varchar type →
  all_chars (not_char ")") r = true →
  get_field_type type = Raise TypeError ∧
  get_field_type (type +:+ String "(" r) = Raise TypeError.
Proof.
  intros Hv Hr. unfold get_field_type.
  rewrite match_field_type_no_args by (by destruct Hv as [-> | ->]).
  rewrite match_field_type_unclosed by (by destruct Hv as [-> | ->]).
  by destruct Hv as [-> | ->].
Qed.

Lemma span_rest_keeps (p q : ascii → bool) (s : string) :
  (∀ c, p c = true → q c = true) →
  all_chars q s = false → all_chars q (snd (span p s)) = false.
Proof.
  intros Hpq. induction s as [|c s IH]; [done|].
  cbn [span all_chars]. destruct (p c) eqn:Hp; [|done].
  rewrite (Hpq c Hp). cbn [andb]. intros Hs. specialize (IH Hs).
  by destruct (span p s).
Qed.

Lemma int_sign_keeps (s : string) :
  all_chars is_int_text_char s = false →
  all_chars is_int_text_char (snd (int_sign s)) = false.
Proof.
  destruct s as [|c s]; [done|]. revert c.
  assert (H : ∀ c, snd (int_sign (String c s)) = String c s ∨
                   (is_int_text_char c = true ∧
                    snd (int_sign (String c s)) = s)).
  { intros c. destruct c as [[] [] [] [] [] [] [] []];
      first [by left | by right]. }
  intros c. destruct (H c) as [-> | [Hc ->]]; [done|].
  cbn [all_chars]. by rewrite Hc.
Qed.

(** A text with a character that [int] does not read is no integer. *)
Lemma int_other_char (s : string) :
  all_chars is_int_text_char s = false → int s = Raise ValueError.
Proof.
  intros Hs. unfold int.
  assert (H1 : all_chars is_int_text_char (snd (span is_int_space s)) = false).
  { apply span_rest_keeps; [by_chars | done]. }
  apply int_sign_keeps in H1.
  destruct (int_sign (snd (span is_int_space s))) as [negative s2].
  cbn [snd] in H1.
  assert (H2 : all_chars is_int_text_char
                 (snd (span (λ c, is_digit c || Ascii.eqb c "_") s2)) = false).
  { apply span_rest_keeps; [by_chars | done]. }
  destruct (span (λ c, is_digit c || Ascii.eqb c "_") s2) as [run rest].
  cbn [snd] in H2.
  assert (all_chars is_int_space rest = false) as ->.
  { destruct (all_chars is_int_space rest) eqn:Hrest; [|done].
    rewrite (all_chars_impl is_int_space is_int_text_char rest) in H2;
      [done | by_chars | done]. }
  by rewrite andb_false_r.
Qed.

(** A character that is not white space, no comma and not read by [int]
    ends up in a piece. *)
Lemma re_split_comma_other_char (skipping : bool) (s : string) :
  all_chars (λ c, is_int_text_char c || Ascii.eqb c "," || is_space c) s
  = false →
  ∃ piece, piece ∈ re_split_comma skipping s ∧
           all_chars is_int_text_char piece = false.
Proof.
  revert skipping. induction s as [|c s IH]; intros skipping; [done|].
  cbn [all_chars re_split_comma]. intros Hs.
  destruct (skipping && is_space c) eqn:Hskip.
  { apply andb_true_iff in Hskip as [_ Hc]. rewrite Hc, !orb_true_r in Hs.
    by apply IH. }
  destruct (Ascii.eqb c ",") eqn:Hcomma.
  { rewrite orb_true_r in Hs. destruct (IH true Hs) as (piece & Hin & Hp).
    exists piece. split; [by right | done]. }
  destruct (is_int_text_char c) eqn:Hc.
  - cbn [orb andb] in Hs. destruct (IH false Hs) as (piece & Hin & Hp).
    destruct (re_split_comma false s) as [|first pieces];
      [by apply elem_of_nil in Hin|].
    apply elem_of_cons in Hin as [-> | Hin].
    + exists (String c first). split; [by left|].
      cbn [all_chars]. by rewrite Hp, andb_false_r.
    + exists piece. split; [by right | done].
  - destruct (re_split_comma false s) as [|first pieces].
    + exists (String c EmptyString). split; [by left|].
      cbn [all_chars]. by rewrite Hc.
    + exists (String c first). split; [by left|].
      cbn [all_chars]. by rewrite Hc.
Qed.

(** VARCHAR and VARCHAR2 with an argument that holds a character that
    [int] does not read. *)
Lemma get_field_type_VARCHAR_other_char (type a : string) :
  is_varchar type →
  all_chars (not_char LF) a = true → all_chars (not_char ")") a = true →
  all_chars is_int_text_char a = false →
  get_field_type (type +:+ String "(" (a +:+ ")")) = Raise ValueError.
Proof.
  intros Hv Hlf Hrp Ha. unfold get_field_type.
  rewrite match_field_type_args;
    [|by destruct Hv as [-> | ->]|by destruct Hv as [-> | ->]
     |by destruct a|done|done].
  rewrite (int_other_char a Ha). by destruct Hv as [-> | ->].
Qed.

(** NUMBER with an argument list that holds a character that is no comma,
    no white space and not read by [int]. *)
Lemma get_field_type_NUMBER_other_char (a : string) :
  all_chars (not_char LF) a = true → all_chars (not_char ")") a = true →
  all_chars (λ c, is_int_text_char c || Ascii.eqb c "," || is_space c) a
  = false →
  get_field_type ("NUMBER" +:+ String "(" (a +:+ ")")) = Raise ValueError.
Proof.
  intros Hlf Hrp Ha. unfold get_field_type.
  rewrite match_field_type_args; [|done|done|by destruct a|done|done].
  change (bool_decide ("NUMBER" = "VARCHAR") || bool_decide ("NUMBER" = "VARCHAR2"))
    with false.
  change (bool_decide ("NUMBER" = "NUMBER")) with true. cbv iota.
  destruct (re_split_comma_other_char false a Ha) as (piece & Hin & Hp).
  assert (Hr : map_result int (re_split_comma false a) = Raise ValueError).
  { apply map_int_raises. split; [done|]. exists piece.
    split; [done|]. by apply int_other_char. }
  by rewrite Hr.
Qed.

(** C5, as the code has it.  [get_field_type] raises NotImplementedError
    exactly when the type name (the text before the first parenthesis) is
    none of VARCHAR, VARCHAR2, NUMBER and DATE, or is NUMBER with an argument
    list of more than two integers.  The other failures are of other kinds:
    TypeError exactly for VARCHAR or VARCHAR2 without an argument group,
    ValueError exactly for VARCHAR or VARCHAR2 whose argument, or NUMBER one
    of whose arguments, is not an integer literal, and AttributeError exactly
    for a text that is empty or starts with a parenthesis.  Nothing else is
    raised, so every other text is mapped to a type.

    On the texts themselves: NUMBER with three or more integers, written by
    [str] and separated by a comma and any number of blanks, raises
    NotImplementedError, and so does every text whose type name is none of
    the four, alone or followed by a parenthesis and anything.  VARCHAR and
    VARCHAR2 alone, or followed by a parenthesis that is not closed, raise
    TypeError.  VARCHAR(a) and VARCHAR2(a) raise ValueError when [a] holds a
    character that [int] does not read, and NUMBER(a) when [a] holds such a
    character that is neither a comma nor white space. *)
Theorem C5_get_field_type_failures :
  (∀ text : string,
    (get_field_type text = Raise NotImplementedError ↔
     ∃ type args, match_field_type text = Some (type, args) ∧
       ((¬ is_varchar type ∧ type ≠ "NUMBER" ∧ type ≠ "DATE") ∨
        (type = "NUMBER" ∧ ∃ a ns, args = Some a ∧
           map_result int (re_split_comma false a) = Ret ns ∧ 2 < length ns))) ∧
    (get_field_type text = Raise TypeError ↔
     ∃ type, is_varchar type ∧ match_field_type text = Some (type, None)) ∧
    (get_field_type text = Raise ValueError ↔
     ∃ type a, match_field_type text = Some (type, Some a) ∧
       ((is_varchar type ∧ int a = Raise ValueError) ∨
        (type = "NUMBER" ∧
         ∃ piece, piece ∈ re_split_comma false a ∧ int piece = Raise ValueError))) ∧
    (get_field_type text = Raise AttributeError ↔
     text = EmptyString ∨ ∃ r, text = String "(" r) ∧
    (∀ e, get_field_type text = Raise e →
          e = NotImplementedError ∨ e = TypeError ∨ e = ValueError ∨
          e = AttributeError) ∧
    (∀ type args, match_field_type text = Some (type, args) →
       type ≠ EmptyString ∧ all_chars (not_char "(") type = true ∧
       ∃ rest, text = type +:+ rest ∧
               (rest = EmptyString ∨ ∃ r, rest = String "(" r))) ∧
  (∀ (blanks : string) (ns : list Z),
     all_chars (Ascii.eqb " ") blanks = true → 2 < length ns →
     get_field_type ("NUMBER(" +:+ comma_join blanks (str <$> ns) +:+ ")")
     = Raise NotImplementedError) ∧
  (∀ type text : string,
     type ≠ EmptyString → all_chars (not_char "(") type = true →
     ¬ is_varchar type → type ≠ "NUMBER" → type ≠ "DATE" →
     text = type ∨ (∃ r, text = type +:+ "(" +:+ r) →
     get_field_type text = Raise NotImplementedError) ∧
  (∀ type r : string,
     is_varchar type → all_chars (not_char ")") r = true →
     get_field_type type = Raise TypeError ∧
     get_field_type (type +:+ "(" +:+ r) = Raise TypeError) ∧
  (∀ type a : string,
     is_varchar type →
     all_chars (not_char LF) a = true → all_chars (not_char ")") a = true →
     all_chars is_int_text_char a = false →
     get_field_type (type +:+ "(" +:+ a +:+ ")") = Raise ValueError) ∧
  (∀ a : string,
     all_chars (not_char LF) a = true → all_chars (not_char ")") a = true →
     all_chars (λ c, is_int_text_char c || Ascii.eqb c "," || is_space c) a
     = false →
     get_field_type ("NUMBER(" +:+ a +:+ ")") = Raise ValueError) ∧
  get_field_type "NUMBER(1,2,3)" = Raise NotImplementedError ∧
  get_field_type "NUMBER(10, 2, 0, 5)" = Raise NotImplementedError ∧
  get_field_type "CHAR(1)" = Raise NotImplementedError ∧
  get_field_type "CLOB" = Raise NotImplementedError ∧
  get_field_type "number(9)" = Raise NotImplementedError ∧
  get_field_type "VARCHAR2" = Raise TypeError ∧
  get_field_type "VARCHAR()" = Raise TypeError ∧
  get_field_type "VARCHAR(12 CHAR)" = Raise ValueError ∧
  get_field_type "NUMBER(10,)" = Raise ValueError ∧
  get_field_type "NUMBER(10;2)" = Raise ValueError.
Proof.
  split.
  { intros text.
    split; [apply NotImplementedError_iff|].
    split; [apply TypeError_iff|].
    split; [apply ValueError_iff|].
    split; [apply AttributeError_iff|].
    split; [|apply match_field_type_type].
    intros e H.
    destruct (get_field_type_raises _ _ H) as [?|[?|[?|[? _]]]]; auto. }
  split; [exact get_field_type_NUMBER_many|].
  split; [exact get_field_type_other_name|].
  split; [exact get_field_type_VARCHAR_bare|].
  split; [exact get_field_type_VARCHAR_other_char|].
  split; [exact get_field_type_NUMBER_other_char|].
  repeat split; vm_compute; reflexivity.
Qed.

(** C5 fails as stated.  VARCHAR without an argument and VARCHAR or NUMBER
    with an argument that is no integer fail, but not with
    NotImplementedError; and texts that no rule covers are mapped without a
    failure: DATE with an argument, NUMBER with an empty or unclosed
    argument list, VARCHAR with text after its argument. *)
Lemma C5_counterexample :
  get_field_type "VARCHAR" = Raise TypeError ∧
  get_field_type "VARCHAR2(abc)" = Raise ValueError ∧
  get_field_type "NUMBER(1.5)" = Raise ValueError ∧
  get_field_type "DATE(5)" = Ret types.Date ∧
  get_field_type "NUMBER()" = Ret types.BigInteger ∧
  get_field_type "NUMBER(abc" = Ret types.BigInteger ∧
  get_field_type "VARCHAR(12)xyz" = Ret (types.String 12).
Proof. repeat split; vm_compute; reflexivity. Qed.

(** ** C3: which archive members belong to a table *)

(** C3, as the code has it.  A member is selected for a table exactly when
    the member name itself, as it stands in the archive, equals the
    lowercased table name followed by [.txt], or starts with the lowercased
    table name followed by an underscore.  Only the table name is lowercased.
    For the table PERSON, [person.txt] and [person_2023.txt] are selected and
    [personnel.txt] is not. *)
Theorem C3_file_is_for_table :
  (∀ name file_name : string,
     file_is_for_table name file_name = true ↔
     file_name = lower name +:+ ".txt" ∨
     ∃ rest, file_name = (lower name +:+ "_") +:+ rest) ∧
  file_is_for_table "PERSON" "person.txt" = true ∧
  file_is_for_table "PERSON" "person_2023.txt" = true ∧
  file_is_for_table "PERSON" "personnel.txt" = false ∧
  file_is_for_table "Person" "person.txt" = true ∧
  data_file_names "PERSON"
    ["README.TXT"; "person.txt"; "personnel.txt"; "person_2023.txt"]
  = ["person.txt"; "person_2023.txt"].
Proof.
  split; [|repeat split; vm_compute; reflexivity].
  intros name file_name. unfold file_is_for_table.
  rewrite <- startswith_spec. case_bool_decide; [|tauto].
  split; [by left | done].
Qed.

(** C3 fails as stated.  The member [PERSON.txt], lowercased, equals the
    lowercased table name PERSON followed by [.txt], so the claim selects it;
    the code compares the member name as it stands and does not select it. *)
Lemma C3_counterexample :
  lower "PERSON.txt" = lower "PERSON" +:+ ".txt" ∧
  file_is_for_table "PERSON" "PERSON.txt" = false ∧
  file_is_for_table "PERSON" "Person_2023.txt" = false.
Proof. repeat split; vm_compute; reflexivity. Qed.

(** ** C6: the sentinel [*] *)

Lemma output_row_lookup (raw_row : list string) (i : nat) :
  output_row raw_row !! i =
  (λ item, if decide (item = "*") then "" else item) <$> raw_row !! i.
Proof.
  unfold output_row. rewrite list_lookup_fmap.
  destruct (raw_row !! i) as [item|]; [|done]. simpl. f_equal.
  case_bool_decide; by case_decide.
Qed.

(** C6.  The normalised row has as many fields as the raw row; a field that
    is exactly [*] becomes the empty string, and every other field, also one
    that holds an asterisk among other characters, is passed on as it is. *)
Theorem C6_output_row_sentinel :
  (∀ raw_row : list string, length (output_row raw_row) = length raw_row) ∧
  (∀ (raw_row : list string) (i : nat),
     raw_row !! i = Some "*" → output_row raw_row !! i = Some "") ∧
  (∀ (raw_row : list string) (i : nat) (item : string),
     raw_row !! i = Some item → item ≠ "*" →
     output_row raw_row !! i = Some item) ∧
  output_row ["JOHN                "; "123"] = ["JOHN                "; "123"] ∧
  output_row ["*"; "a*"; "**"; " *"; "* "; ""; "x"]
  = [""; "a*"; "**"; " *"; "* "; ""; "x"].
Proof.
  split; [intros; apply length_fmap|].
  split; [|split; [|split; vm_compute; reflexivity]].
  - intros raw_row i H. by rewrite output_row_lookup, H.
  - intros raw_row i item H Hne. rewrite output_row_lookup, H. simpl.
    by case_decide.
Qed.

(** ** What a match of the field-declaration pattern holds *)

Lemma scan_token_spec (s tok rest : string) :
  scan_token s = Some (tok, rest) →
  s = tok +:+ rest ∧ 2 ≤ String.length tok ∧
  ∃ c run, tok = String c run ∧ is_upper c = true ∧ run ≠ EmptyString ∧
           all_chars (λ c, negb (is_space c)) run = true.
Proof.
  unfold scan_token. destruct s as [|c s]; [done|].
  destruct (is_upper c) eqn:Hc; [|done].
  pose proof (span_run_all (λ c, negb (is_space c)) s) as Hall.
  pose proof (span_join (λ c, negb (is_space c)) s) as Hjoin.
  destruct (span _ s) as [run r]. simpl in Hall, Hjoin.
  destruct run as [|a run]; [done|]. simpl is_empty. cbv iota.
  intros [= <- <-]. split; [by rewrite <- Hjoin|].
  split; [simpl; lia|]. by exists c, (String a run).
Qed.

Lemma scan_spaces_spec (s run rest : string) :
  scan_spaces s = Some (run, rest) →
  s = run +:+ rest ∧ run ≠ EmptyString ∧ all_chars is_space run = true.
Proof.
  unfold scan_spaces.
  pose proof (span_run_all is_space s) as Hall.
  pose proof (span_join is_space s) as Hjoin.
  destruct (span is_space s) as [r t]. simpl in Hall, Hjoin.
  destruct r as [|a r]; [done|]. simpl is_empty. cbv iota.
  by intros [= <- <-].
Qed.

Lemma scan_digits_spec (s run rest : string) :
  scan_digits s = Some (run, rest) →
  s = run +:+ rest ∧ run ≠ EmptyString ∧ all_chars is_digit run = true.
Proof.
  unfold scan_digits.
  pose proof (span_run_all is_digit s) as Hall.
  pose proof (span_join is_digit s) as Hjoin.
  destruct (span is_digit s) as [r t]. simpl in Hall, Hjoin.
  destruct r as [|a r]; [done|]. simpl is_empty. cbv iota.
  by intros [= <- <-].
Qed.

Lemma scan_char_spec (c : ascii) (s rest : string) :
  scan_char c s = Some rest → s = String c rest.
Proof.
  unfold scan_char. destruct s as [|a s]; [done|].
  destruct (Ascii.eqb c a) eqn:Hc; [|done].
  apply Ascii.eqb_eq in Hc as ->. by intros [= ->].
Qed.

Lemma scan_type_and_columns_spec (s ft sc ec rest : string) :
  scan_type_and_columns s = Some (ft, sc, ec, rest) → groups_ok ft sc ec.
Proof.
  unfold scan_type_and_columns.
  destruct (scan_token s) as [[ft' s1]|] eqn:H1; [|done]. simpl.
  destruct (scan_spaces s1) as [[w s2]|] eqn:H2; [|done]. simpl.
  destruct (scan_char "(" s2) as [s3|] eqn:H3; [|done]. simpl.
  destruct (scan_digits s3) as [[sc' s4]|] eqn:H4; [|done]. simpl.
  destruct (scan_char ":" s4) as [s5|] eqn:H5; [|done]. simpl.
  destruct (scan_digits s5) as [[ec' s6]|] eqn:H6; [|done]. simpl.
  destruct (scan_char ")" s6) as [s7|] eqn:H7; [|done]. simpl.
  intros [= <- <- <- <-].
  apply scan_token_spec in H1 as (_ & ? & _).
  apply scan_digits_spec in H4 as (_ & ? & ?).
  apply scan_digits_spec in H6 as (_ & ? & ?).
  by repeat split.
Qed.

Lemma scan_marker_type_columns_spec (w1 s2 ft sc ec rest : string) :
  scan_marker_type_columns w1 s2 = Some (ft, sc, ec, rest) →
  groups_ok ft sc ec.
Proof.
  unfold scan_marker_type_columns.
  destruct (startswith "NOT NULL" s2).
  - destruct (scan_spaces (drop_str 8 s2)) as [[w2 s3]|]; cbn [mbind option_bind].
    + destruct (scan_type_and_columns s3) as [[[[??]?]?]|] eqn:Hs.
      * intros [= <- <- <- <-]. eauto using scan_type_and_columns_spec.
      * destruct (2 <=? String.length w1); [|done].
        eauto using scan_type_and_columns_spec.
    + destruct (2 <=? String.length w1); [|done].
      eauto using scan_type_and_columns_spec.
  - destruct (2 <=? String.length w1); [|done].
    eauto using scan_type_and_columns_spec.
Qed.

Lemma match_field_spec_groups (s : string) (m : Match) (rest : string) :
  match_field_spec s = Some (m, rest) →
  2 ≤ String.length (group_field_name m) ∧
  groups_ok (group_field_type m) (group_start_column m) (group_end_column m).
Proof.
  unfold match_field_spec.
  destruct (scan_token s) as [[fn s1]|] eqn:H1; [|done].
  cbn [mbind option_bind].
  destruct (scan_spaces s1) as [[w1 s2]|] eqn:H2; [|done].
  cbn [mbind option_bind].
  apply scan_token_spec in H1 as (_ & Hfn & _).
  destruct (scan_marker_type_columns w1 s2) as [[[[ft sc] ec] r]|] eqn:Ho;
    [|done].
  cbn [mbind option_bind]. intros [= <- <-]. cbn.
  eauto using scan_marker_type_columns_spec.
Qed.

(** Every match that [finditer] yields is a match of the pattern at some
    place of the text. *)
Lemma finditer_field_specs_Forall (P : Match → Prop) :
  (∀ s m rest, match_field_spec s = Some (m, rest) → P m) →
  ∀ s skip bol, Forall P (finditer_field_specs skip bol s).
Proof.
  intros HP. induction s as [|c s IH]; intros skip bol; simpl; [done|].
  destruct skip as [|k]; [|apply IH].
  destruct (if bol then match_field_spec (String c s) else None)
    as [[m rest]|] eqn:Hm; [|apply IH].
  constructor; [|apply IH].
  destruct bol; [|done]. eauto.
Qed.

(** ** C7: the rows of a schema *)

Lemma int_of_digit_run (s : string) :
  s ≠ EmptyString → all_chars is_digit s = true →
  ∃ n : Z, (0 ≤ n)%Z ∧ int s = Ret n.
Proof.
  intros Hne Hs. destruct (int_of_digits s Hs Hne) as [-> _].
  eexists. split; [|done]. simpl. unfold Z.of_uint. apply N2Z.is_nonneg.
Qed.

Lemma make_row_spec (m : Match) :
  groups_ok (group_field_type m) (group_start_column m) (group_end_column m) →
  ∃ row, make_row m = Ret row ∧ row_of_match m row.
Proof.
  intros (_ & [Hs1 Hs2] & [He1 He2]).
  destruct (int_of_digit_run _ Hs1 Hs2) as (start & ? & Hstart).
  destruct (int_of_digit_run _ He1 He2) as (end_ & ? & Hend).
  unfold make_row. rewrite Hstart, Hend. eexists. split; [done|].
  by exists start, end_.
Qed.

Lemma map_result_Forall2 {A B : Type} (f : A → result B) (R : A → B → Prop)
    (xs : list A) :
  Forall (λ x, ∃ y, f x = Ret y ∧ R x y) xs →
  ∃ ys, map_result f xs = Ret ys ∧ Forall2 R xs ys.
Proof.
  induction 1 as [|x xs (y & Hy & HR) _ (ys & Hys & HF)]; simpl.
  - by exists [].
  - rewrite Hy, Hys. exists (y :: ys). split; [done|]. by constructor.
Qed.

Lemma extract_schema_rows (fragment : string) :
  ∃ rows, extract_schema fragment = Ret {| getvalue := rows; tell := 0 |} ∧
          Forall2 row_of_match (finditer_field_specs 0 true fragment) rows.
Proof.
  unfold extract_schema, make_schema_io.
  destruct (map_result_Forall2 make_row row_of_match
              (finditer_field_specs 0 true fragment)) as (rows & -> & HF).
  - apply finditer_field_specs_Forall. intros s m rest Hm.
    apply make_row_spec. by apply match_field_spec_groups in Hm as [_ ?].
  - by exists rows.
Qed.

(** C7.  [extract_schema] always returns, and its rows are the matches of
    the field-declaration pattern in match order: the row of a match that
    read the pair [(start:end)] holds the field name, [start],
    [end - start + 1] and the field type.  On the PERSON fragment of the
    specification, [extract_table_schemas] yields the one table PERSON with
    the columns FIRST_NAME, start 1, length 20, VARCHAR2(20) and AGE, start
    21, length 3, NUMBER(3), in that order. *)
Theorem C7_rows_of_matches :
  (∀ fragment : string,
     ∃ rows,
       extract_schema fragment = Ret {| getvalue := rows; tell := 0 |} ∧
       Forall2 row_of_match (finditer_field_specs 0 true fragment) rows) ∧
  finditer_field_specs 0 true PERSON_readme
  = [ {| group_field_name := "FIRST_NAME"; group_field_type := "VARCHAR2(20)";
         group_start_column := "1"; group_end_column := "20" |};
      {| group_field_name := "AGE"; group_field_type := "NUMBER(3)";
         group_start_column := "21"; group_end_column := "23" |} ] ∧
  extract_table_schemas PERSON_readme
  = Ret {[ "PERSON" :=
           {| getvalue :=
                [ {| Row.column := "FIRST_NAME"; Row.start := "1";
                     Row.length := "20"; Row.field_type := "VARCHAR2(20)" |};
                  {| Row.column := "AGE"; Row.start := "21";
                     Row.length := "3"; Row.field_type := "NUMBER(3)" |} ];
              tell := 0 |} ]}.
Proof.
  split; [apply extract_schema_rows|].
  split; vm_compute; reflexivity.
Qed.

(** ** C9: one white-space character does not separate name and type *)

Lemma span_head_not (p : ascii → bool) (s : string) :
  head_is p s = false → span p s = (EmptyString, s).
Proof. destruct s as [|a s]; simpl; [done|]. by intros ->. Qed.

Lemma scan_token_app (c : ascii) (name : string) (w : ascii) (rest : string) :
  is_upper c = true → name ≠ EmptyString →
  all_chars (λ c, negb (is_space c)) name = true → is_space w = true →
  scan_token (String c name +:+ String w rest)
  = Some (String c name, String w rest).
Proof.
  intros Hc Hne Hname Hw. simpl. rewrite Hc.
  rewrite (span_app _ name w rest Hname) by (by rewrite Hw).
  by destruct name.
Qed.

(** Without a line start after the first character, [finditer] has at most
    the match at the first character. *)
Lemma finditer_no_line_start (s : string) (skip : nat) :
  all_chars (not_char LF) s = true → finditer_field_specs skip false s = [].
Proof.
  revert skip. induction s as [|c s IH]; intros skip; simpl; [done|].
  intros [Hc Hs]%andb_true_iff. unfold not_char in Hc.
  apply negb_true_iff in Hc. rewrite Hc.
  destruct skip; by apply IH.
Qed.

Lemma finditer_one_line (line : string) :
  all_chars (not_char LF) line = true → match_field_spec line = None →
  finditer_field_specs 0 true line = [].
Proof.
  destruct line as [|c s]; [done|]. intros Hline Hm.
  cbn [finditer_field_specs]. rewrite Hm.
  simpl in Hline. apply andb_true_iff in Hline as [Hc Hs].
  unfold not_char in Hc. apply negb_true_iff in Hc. rewrite Hc.
  by apply finditer_no_line_start.
Qed.

Lemma span_rest_head (p : ascii → bool) (s : string) :
  head_is p (snd (span p s)) = false.
Proof.
  induction s as [|c s IH]; simpl; [done|].
  destruct (p c) eqn:Hc; [|by simpl].
  by destruct (span p s).
Qed.

(** Where the pattern matches, the field name is followed by a run of white
    space; and either the marker NOT NULL comes next, or the run has two
    characters at least. *)
Lemma field_spec_separator (s : string) (m : Match) (rest : string) :
  match_field_spec s = Some (m, rest) →
  ∃ w tail,
    s = group_field_name m +:+ w +:+ tail ∧
    all_chars is_space w = true ∧ head_is is_space tail = false ∧
    (startswith "NOT NULL" tail = true ∨ 2 ≤ String.length w).
Proof.
  unfold match_field_spec.
  destruct (scan_token s) as [[fn s1]|] eqn:H1; [|done].
  cbn [mbind option_bind].
  destruct (scan_spaces s1) as [[w1 s2]|] eqn:H2; [|done].
  cbn [mbind option_bind].
  destruct (scan_marker_type_columns w1 s2) as [[[[ft sc] ec] r]|] eqn:Ho;
    [|done].
  cbn [mbind option_bind]. intros [= <- <-]. cbn [group_field_name].
  apply scan_token_spec in H1 as (-> & _).
  assert (Hhead : head_is is_space s2 = false).
  { unfold scan_spaces in H2. pose proof (span_rest_head is_space s1) as Hh.
    destruct (span is_space s1) as [run t]. simpl in Hh.
    destruct (is_empty run); [done|]. by injection H2 as _ <-. }
  apply scan_spaces_spec in H2 as (-> & _ & Hw).
  exists w1, s2. repeat split; try done.
  unfold scan_marker_type_columns in Ho.
  destruct (startswith "NOT NULL" s2); [by left|].
  destruct (2 <=? String.length w1) eqn:Hlen; [|done].
  right. by apply Nat.leb_le.
Qed.

(** C9.  A line that starts with a field name (a capital letter and at
    least one more character that is no white space), followed by exactly
    one white-space character and then by text that is not the marker
    NOT NULL, is no match of the field-declaration pattern; when it is the
    whole fragment, the schema has no row. *)
Theorem C9_one_space_is_no_declaration
    (c : ascii) (name : string) (w : ascii) (rest : string) :
  is_upper c = true →
  name ≠ EmptyString →
  all_chars (λ c, negb (is_space c)) name = true →
  is_space w = true →
  head_is is_space rest = false →
  startswith "NOT NULL" rest = false →
  match_field_spec (String c name +:+ String w rest) = None ∧
  (all_chars (not_char LF) (String c name +:+ String w rest) = true →
   extract_schema (String c name +:+ String w rest)
   = Ret {| getvalue := []; tell := 0 |}).
Proof.
  intros Hc Hne Hname Hw Hrest Hmarker.
  assert (Hm : match_field_spec (String c name +:+ String w rest) = None).
  { unfold match_field_spec.
    rewrite (scan_token_app c name w rest Hc Hne Hname Hw).
    cbn [mbind option_bind]. unfold scan_spaces. cbn [span]. rewrite Hw.
    rewrite (span_head_not _ _ Hrest). cbn [is_empty mbind option_bind].
    unfold scan_marker_type_columns. by rewrite Hmarker. }
  split; [done|]. intros Hline. unfold extract_schema.
  by rewrite (finditer_one_line _ Hline Hm).
Qed.

(** The line [AGE NUMBER(3) (21:23)], with one space after the name. *)
Lemma C9_one_space_witness :
  match_field_spec "AGE NUMBER(3) (21:23)" = None ∧
  (all_chars (not_char LF) "AGE NUMBER(3) (21:23)" = true →
   extract_schema "AGE NUMBER(3) (21:23)" = Ret {| getvalue := []; tell := 0 |}).
Proof.
  apply (C9_one_space_is_no_declaration "A" "GE" " " "NUMBER(3) (21:23)");
    reflexivity || discriminate.
Defined.

(** With two spaces, or with the marker between single spaces, the same
    line is a declaration. *)
Example two_spaces_or_marker :
  finditer_field_specs 0 true "AGE  NUMBER(3) (21:23)"
  = [ {| group_field_name := "AGE"; group_field_type := "NUMBER(3)";
         group_start_column := "21"; group_end_column := "23" |} ] ∧
  finditer_field_specs 0 true "AGE NOT NULL NUMBER(3) (21:23)"
  = [ {| group_field_name := "AGE"; group_field_type := "NUMBER(3)";
         group_start_column := "21"; group_end_column := "23" |} ] ∧
  finditer_field_specs 0 true "AGE NUMBER(3) (21:23)" = [].
Proof. repeat split; vm_compute; reflexivity. Qed.

(** ** C10: tokens of one character are never recorded *)

Lemma match_table_header_length (s name : string) :
  match_table_header s = Some name → 2 ≤ String.length name.
Proof.
  unfold match_table_header. destruct s as [|c s]; [done|].
  destruct (is_upper c); [|done].
  destruct (span _ s) as [run rest]. destruct run as [|a run]; [done|].
  destruct (_ && _); [|done]. intros [= <-]. simpl. lia.
Qed.

Lemma findall_table_names_Forall (P : string → Prop) :
  (∀ s name, match_table_header s = Some name → P name) →
  ∀ s skip bol, Forall P (findall_table_names skip bol s).
Proof.
  intros HP. induction s as [|c s IH]; intros skip bol;
    cbn [findall_table_names]; [done|].
  destruct skip as [|k]; [|apply IH].
  destruct (if bol then match_table_header (String c s) else None)
    as [name|] eqn:Hm; [|apply IH].
  constructor; [|apply IH].
  destruct bol; [|done]. eauto.
Qed.

Lemma map_result_inv {A B : Type} (f : A → result B) (xs : list A)
    (ys : list B) :
  map_result f xs = Ret ys → Forall2 (λ x y, f x = Ret y) xs ys.
Proof.
  revert ys. induction xs as [|x xs IH]; intros ys; simpl.
  - intros [= <-]. constructor.
  - destruct (f x) as [y|] eqn:Hx; [|done]. cbn [mbind result_bind].
    destruct (map_result f xs) as [ys'|]; [|done]. cbn [mbind result_bind].
    intros [= <-]. constructor; auto.
Qed.

Lemma get_table_start_name (readme table_name : string) (info : string * nat) :
  get_table_start readme table_name = Ret info → info.1 = table_name.
Proof.
  unfold get_table_start. destruct (all_chars _ table_name); [|done].
  destruct (search_line_start _ _ _ _); [|done]. by intros [= <-].
Qed.

Lemma get_table_end_name (table_starts : list (string * nat))
    (last_table_name : string) (i : nat) (info : string * nat)
    (out : string * nat * option nat) :
  get_table_end table_starts last_table_name i info = Ret out →
  out.1 = info.
Proof.
  unfold get_table_end. destruct info as [table_name table_start].
  case_bool_decide; [by intros [= <-]|].
  destruct (table_starts !! (i + 1)) as [[_ e]|]; [|done]. by intros [= <-].
Qed.

(** An entry of the filled mapping was there before, or is the schema of
    the fragment of one of the tables of the list. *)
Lemma fill_schemas_lookup (readme : string)
    (table_info : list (string * nat * option nat))
    (schemas out : gmap string StringIO) (name : string) (io : StringIO) :
  fill_schemas readme table_info schemas = Ret out →
  out !! name = Some io →
  schemas !! name = Some io ∨
  ∃ table_start table_end,
    (name, table_start, table_end) ∈ table_info ∧
    extract_schema (slice readme table_start table_end) = Ret io.
Proof.
  revert schemas. induction table_info as [|[[n a] b] infos IH];
    intros schemas; simpl.
  - intros [= <-]. by left.
  - destruct (extract_schema (slice readme a b)) as [schema|] eqn:Hs; [|done].
    cbn [mbind result_bind]. intros Hfill Hout.
    destruct (IH _ Hfill Hout) as [Hin | (a' & b' & Hin & Hex)].
    + destruct (decide (n = name)) as [->|Hne].
      * rewrite lookup_insert_eq in Hin. injection Hin as <-.
        right. exists a, b. split; [by left | done].
      * rewrite lookup_insert_ne in Hin by done. by left.
    + right. exists a', b'. split; [by right | done].
Qed.

(** A table of the result is one of the names found by the header pattern,
    and its schema is the schema of some slice of the document. *)
Lemma extract_table_schemas_lookup (readme : string)
    (schemas : gmap string StringIO) (name : string) (io : StringIO) :
  extract_table_schemas readme = Ret schemas →
  schemas !! name = Some io →
  name ∈ findall_table_names 0 true readme ∧
  ∃ table_start table_end,
    extract_schema (slice readme table_start table_end) = Ret io.
Proof.
  unfold extract_table_schemas.
  destruct (map_result (get_table_start readme) _) as [table_starts|] eqn:Hst;
    [|done].
  cbn [mbind result_bind].
  destruct (last _) as [last_table_name|]; [|done]. cbn [mbind result_bind].
  destruct (map_result _ (enumerate table_starts)) as [table_info|] eqn:Hinfo;
    [|done].
  cbn [mbind result_bind]. intros Hfill Hout.
  destruct (fill_schemas_lookup _ _ _ _ _ _ Hfill Hout)
    as [Hin | (a & b & Hin & Hex)]; [by rewrite lookup_empty in Hin|].
  split; [|eauto].
  apply map_result_inv in Hst, Hinfo.
  apply list_elem_of_lookup in Hin as [k Hk].
  destruct (Forall2_lookup_r _ _ _ _ _ Hinfo Hk) as ([i info] & Hi & Hend).
  apply get_table_end_name in Hend. simpl in Hend. subst info.
  unfold enumerate in Hi.
  apply list_lookup_imap_Some in Hi as (x & Hx & ?). simplify_eq.
  destruct (Forall2_lookup_r _ _ _ _ _ Hst Hx) as (table_name & Hn & Hstart).
  apply get_table_start_name in Hstart. simpl in Hstart. subst table_name.
  apply list_elem_of_lookup. eauto.
Qed.

Lemma rows_keep_tokens (ms : list Match) (rows : list Row.t) :
  Forall2 row_of_match ms rows →
  Forall (λ m, 2 ≤ String.length (group_field_name m) ∧
               2 ≤ String.length (group_field_type m)) ms →
  Forall (λ row, 2 ≤ String.length (Row.column row) ∧
                 2 ≤ String.length (Row.field_type row)) rows.
Proof.
  induction 1 as [|m row ms rows Hrow _ IH]; [constructor|].
  intros [Hm Hms]%Forall_cons. constructor; [|auto].
  destruct Hrow as (? & ? & _ & _ & _ & _ & ->). done.
Qed.

(** C10.  Every table name that the header pattern finds has two
    characters at least, and so have the field name and the field type of
    every match of the field-declaration pattern; hence every table that
    [extract_table_schemas] records, and every column of its schema, has a
    name, and a type, of two characters at least.  A header or a field line
    whose token is a single capital letter is passed over. *)
Theorem C10_no_single_character_token :
  (∀ readme : string,
     Forall (λ name, 2 ≤ String.length name)
            (findall_table_names 0 true readme)) ∧
  (∀ fragment : string,
     Forall (λ m, 2 ≤ String.length (group_field_name m) ∧
                  2 ≤ String.length (group_field_type m))
            (finditer_field_specs 0 true fragment)) ∧
  (∀ (readme : string) (schemas : gmap string StringIO)
     (name : string) (io : StringIO),
     extract_table_schemas readme = Ret schemas →
     schemas !! name = Some io →
     2 ≤ String.length name ∧
     Forall (λ row, 2 ≤ String.length (Row.column row) ∧
                    2 ≤ String.length (Row.field_type row))
            (getvalue io)) ∧
  findall_table_names 0 true ("A - one" +:+ String LF "AB - two") = ["AB"] ∧
  finditer_field_specs 0 true
    ("A  VARCHAR(1)  (1:1)" +:+ String LF
     ("AB  V  (2:2)" +:+ String LF "AB  VC  (3:3)"))
  = [ {| group_field_name := "AB"; group_field_type := "VC";
         group_start_column := "3"; group_end_column := "3" |} ].
Proof.
  assert (Hnames : ∀ readme, Forall (λ name, 2 ≤ String.length name)
                               (findall_table_names 0 true readme)).
  { intros readme. apply findall_table_names_Forall.
    apply match_table_header_length. }
  assert (Hmatches : ∀ fragment,
            Forall (λ m, 2 ≤ String.length (group_field_name m) ∧
                         2 ≤ String.length (group_field_type m))
                   (finditer_field_specs 0 true fragment)).
  { intros fragment. apply finditer_field_specs_Forall.
    intros s m rest Hm.
    by apply match_field_spec_groups in Hm as (? & ? & _). }
  split; [done|]. split; [done|].
  split; [|split; vm_compute; reflexivity].
  intros readme schemas name io Hex Hlook.
  destruct (extract_table_schemas_lookup _ _ _ _ Hex Hlook)
    as (Hin & a & b & Hio).
  split.
  - pose proof (Hnames readme) as HF. rewrite Forall_forall in HF. auto.
  - destruct (extract_schema_rows (slice readme a b)) as (rows & Hrows & HF2).
    rewrite Hrows in Hio. injection Hio as <-. simpl.
    eapply rows_keep_tokens; [exact HF2 | apply Hmatches].
Qed.

(** ** C2: what a second call of [ensure_table_exists] does *)

Lemma create_all_one (name : string) (table : Table) (w : World) :
  create_all {| tables := <[name := table]> ∅ |} w = create_one w table.
Proof.
  unfold create_all. cbn [tables].
  rewrite insert_empty, map_to_list_singleton. cbn [fmap list_fmap snd create_tables].
  by destruct (create_one w table).
Qed.

(** The one path that [ensure_table_exists] takes: the branch for a table
    that is already known is never entered, because the [MetaData] object
    is new at every call. *)
Lemma ensure_table_exists_unfold (name : string) (schema : StringIO)
    (w : World) :
  ensure_table_exists name schema w =
  (columns ← map_result build_column (getvalue schema);
   let table := {| table_id := next_id w; table_name := name;
                   table_columns := collect_columns columns |} in
   w' ← create_one {| database := database w; accepts := accepts w;
                      next_id := S (next_id w); trace := trace w |} table;
   Ret (table,
        {| getvalue := getvalue schema; tell := length (getvalue schema) |},
        emit (info_created name) w')).
Proof.
  unfold ensure_table_exists, MetaData_new. cbn [tables].
  rewrite lookup_empty. unfold read_rows, seek0. cbn [getvalue tell].
  rewrite drop_0.
  destruct (map_result build_column (getvalue schema)) as [columns|]; [|done].
  cbn [mbind result_bind]. unfold Table_new.
  by rewrite create_all_one.
Qed.

(** The call for a table that the database does not have and takes. *)
Lemma ensure_table_exists_absent (name : string) (schema : StringIO)
    (w : World) (columns : list Column) :
  database w !! name = None →
  map_result build_column (getvalue schema) = Ret columns →
  accepts w name (collect_columns columns) = true →
  ensure_table_exists name schema w =
  Ret ({| table_id := next_id w; table_name := name;
          table_columns := collect_columns columns |},
       {| getvalue := getvalue schema; tell := length (getvalue schema) |},
       {| database := <[name := collect_columns columns]> (database w);
          accepts := accepts w;
          next_id := S (next_id w);
          trace := trace w ++ [sql_has_table name;
                               sql_create_table name (collect_columns columns);
                               info_created name] |}).
Proof.
  intros Hnew Hcolumns Haccepts.
  rewrite ensure_table_exists_unfold, Hcolumns. cbn [mbind result_bind].
  unfold create_one, emit.
  cbn [database accepts next_id trace table_id table_name table_columns].
  rewrite Hnew, Haccepts. cbn [mbind result_bind].
  cbn [database accepts next_id trace].
  by rewrite <- !app_assoc.
Qed.


(** The call for a table that the database has not and refuses. *)
Lemma ensure_table_exists_refused (name : string) (schema : StringIO)
    (w : World) (columns : list Column) :
  database w !! name = None →
  map_result build_column (getvalue schema) = Ret columns →
  accepts w name (collect_columns columns) = false →
  ensure_table_exists name schema w = Raise DatabaseError.
Proof.
  intros Hnew Hcolumns Haccepts.
  rewrite ensure_table_exists_unfold, Hcolumns. cbn [mbind result_bind].
  unfold create_one, emit.
  cbn [database accepts next_id trace table_id table_name table_columns].
  by rewrite Hnew, Haccepts.
Qed.



(** ** C4: a table name that heads two sections *)

(** C4 fails on the code.  In [duplicate_readme] the headers are AA at
    offset 0, BB at 33 and AA at 66.  [get_table_start] searches the
    document for the name, so both AA get the offset 0 of the first one;
    both are the last table name, so both run to the end of the document;
    and BB ends at the start of the table after it, which is 0 again.  The
    mapping gives AA the rows of the whole document and BB none, where the
    fragment of the last AA header holds the one row F3 and that of BB the
    one row F2. *)
Theorem C4_duplicate_header_offsets :
  findall_table_names 0 true duplicate_readme = ["AA"; "BB"; "AA"] ∧
  map_result (get_table_start duplicate_readme) ["AA"; "BB"; "AA"]
  = Ret [("AA", 0); ("BB", 33); ("AA", 0)] ∧
  extract_table_schemas duplicate_readme
  = Ret {[ "AA" := {| getvalue :=
                        [ duplicate_row "F1" "1" "1" "VARCHAR(1)";
                          duplicate_row "F2" "2" "2" "VARCHAR(2)";
                          duplicate_row "F3" "4" "3" "VARCHAR(3)" ];
                      tell := 0 |};
           "BB" := {| getvalue := []; tell := 0 |} ]} ∧
  startswith "AA - second" (slice duplicate_readme 66 None) = true ∧
  extract_schema (slice duplicate_readme 66 None)
  = Ret {| getvalue := [ duplicate_row "F3" "4" "3" "VARCHAR(3)" ];
           tell := 0 |} ∧
  extract_schema (slice duplicate_readme 33 (Some 66))
  = Ret {| getvalue := [ duplicate_row "F2" "2" "2" "VARCHAR(2)" ];
           tell := 0 |}.
Proof. repeat split; vm_compute; reflexivity. Qed.

(** The same with the repeated header first: the first AA gets the empty
    fragment from 0 to 0, and the second AA the text of both AA sections. *)
Example duplicate_header_merges :
  extract_table_schemas
    ("AA - first" +:+ String LF
     ("F1  VARCHAR(1)  (1:1)" +:+ String LF
     ("AA - second" +:+ String LF
     ("F2  VARCHAR(2)  (2:3)" +:+ String LF
     ("BB - other" +:+ String LF
     ("F3  VARCHAR(3)  (4:6)" +:+ String LF ""))))))
  = Ret {[ "AA" := {| getvalue :=
                        [ duplicate_row "F1" "1" "1" "VARCHAR(1)";
                          duplicate_row "F2" "2" "2" "VARCHAR(2)" ];
                      tell := 0 |};
           "BB" := {| getvalue := [ duplicate_row "F3" "4" "3" "VARCHAR(3)" ];
                      tell := 0 |} ]}.
Proof. vm_compute. reflexivity. Qed.

(** * Further properties of the code *)

(** ** [file_is_for_table]: a table whose name starts another table's name *)

Lemma lower_append (s t : string) : lower (s +:+ t) = lower s +:+ lower t.
Proof. induction s as [|c s IH]; simpl; [done|]. by rewrite IH. Qed.

(** X1.  The files of a table named [name_suffix] are also taken for the table
    [name]: the test for [name] asks only that the member starts with the
    lowercased [name] and an underscore. *)
Theorem file_of_longer_name_is_taken (name suffix file_name : string) :
  file_is_for_table (name +:+ "_" +:+ suffix) file_name = true →
  file_is_for_table name file_name = true.
Proof.
  unfold file_is_for_table. rewrite !lower_append.
  change (lower "_") with "_".
  intros H.
  destruct (bool_decide (file_name = lower name +:+ ".txt")); [done|].
  apply startswith_spec.
  destruct (decide (file_name = (lower name +:+ "_" +:+ lower suffix) +:+ ".txt"))
    as [Heq|Hne].
  - exists (lower suffix +:+ ".txt"). by rewrite Heq, !append_assoc.
  - rewrite bool_decide_eq_false_2 in H by done.
    apply startswith_spec in H as [rest ->].
    exists (lower suffix +:+ "_" +:+ rest). by rewrite !append_assoc.
Qed.

(** The files of PERSON_ADDRESS and the table PERSON. *)
Lemma file_of_longer_name_witness :
  file_is_for_table "PERSON" "person_address.txt" = true.
Proof.
  apply (file_of_longer_name_is_taken "PERSON" "ADDRESS" "person_address.txt").
  reflexivity.
Defined.

(** ** [output_row]: no sentinel is left *)

(** X2.  After the replacement no field is the sentinel, and a second
    replacement changes nothing. *)
Theorem output_row_no_sentinel (raw_row : list string) :
  Forall (λ item, item ≠ "*") (output_row raw_row) ∧
  output_row (output_row raw_row) = output_row raw_row.
Proof.
  unfold output_row. split.
  - apply Forall_fmap, Forall_forall. intros item _. simpl.
    by case_bool_decide.
  - rewrite <- list_fmap_compose. apply list_fmap_ext. intros _ item _. simpl.
    destruct (decide (item ≠ "*")) as [Hne|Heq].
    + by rewrite !(bool_decide_eq_true_2 (item ≠ "*")) by done.
    + by rewrite !(bool_decide_eq_false_2 (item ≠ "*")) by done.
Qed.

(** ** [ensure_table_exists]: failure, columns and the database *)




Lemma build_column_name (row : Row.t) (column : Column) :
  build_column row = Ret column →
  column_name column = Row.column row ∧
  get_field_type (Row.field_type row) = Ret (column_type column).
Proof.
  unfold build_column.
  destruct (get_field_type (Row.field_type row)); [|done].
  cbn [mbind result_bind]. by intros [= <-].
Qed.

Lemma build_columns_names (rows : list Row.t) (columns : list Column) :
  map_result build_column rows = Ret columns →
  column_name <$> columns = Row.column <$> rows.
Proof.
  intros H%map_result_inv.
  induction H as [|row column rows columns Hrow _ IH]; [done|].
  cbn [fmap list_fmap]. apply build_column_name in Hrow as [-> _].
  f_equal. exact IH.
Qed.

Lemma replace_column_new (column : Column) (columns : list Column) :
  column_name column ∉ column_name <$> columns →
  replace_column column columns = columns ++ [column].
Proof.
  induction columns as [|c columns IH]; [done|].
  cbn [fmap list_fmap replace_column]. intros Hnew.
  apply not_elem_of_cons in Hnew as [Hc Hnew].
  rewrite bool_decide_eq_false_2 by congruence.
  cbn [app]. f_equal. by apply IH.
Qed.

Lemma collect_columns_from (collected columns : list Column) :
  NoDup (column_name <$> (collected ++ columns)) →
  foldl (λ collected column, replace_column column collected)
    collected columns
  = collected ++ columns.
Proof.
  revert collected.
  induction columns as [|c columns IH]; intros collected Hnodup.
  - cbn [foldl]. by rewrite app_nil_r.
  - cbn [foldl].
    assert (Hnew : column_name c ∉ column_name <$> collected).
    { rewrite fmap_app in Hnodup. apply NoDup_app in Hnodup as (_ & Hd & _).
      intros Hin. apply (Hd _ Hin). cbn [fmap list_fmap]. apply elem_of_cons.
      by left. }
    rewrite (replace_column_new _ _ Hnew).
    rewrite IH; rewrite <- app_assoc; [done|exact Hnodup].
Qed.

(** Columns of distinct names are all kept, in their order. *)
Lemma collect_columns_NoDup (columns : list Column) :
  NoDup (column_name <$> columns) → collect_columns columns = columns.
Proof.
  intros Hnodup. unfold collect_columns.
  by rewrite (collect_columns_from [] columns Hnodup).
Qed.



(** X4.  When [ensure_table_exists] returns for a schema whose rows have
    distinct field names, the handle has the given name and one column for
    each row of the schema, in order, named as the row and typed by
    [get_field_type].  The database then has a table of that name: with
    these columns if it had none, and with the columns it already had
    otherwise, whatever the schema says.  No other table is touched. *)
Theorem ensure_table_exists_returns (name : string) (table_schema : StringIO)
    (w : World) (table : Table) (schema' : StringIO) (w' : World) :
  NoDup (Row.column <$> getvalue table_schema) →
  ensure_table_exists name table_schema w = Ret (table, schema', w') →
  table_name table = name ∧
  Forall2 (λ row column,
             column_name column = Row.column row ∧
             get_field_type (Row.field_type row) = Ret (column_type column))
          (getvalue table_schema) (table_columns table) ∧
  database w' !! name
  = Some (default (table_columns table) (database w !! name)) ∧
  (∀ other, other ≠ name → database w' !! other = database w !! other).
Proof.
  intros Hnodup. rewrite ensure_table_exists_unfold.
  destruct (map_result build_column (getvalue table_schema))
    as [columns|] eqn:Hc; [|done].
  cbn [mbind result_bind].
  rewrite <- (build_columns_names _ _ Hc) in Hnodup.
  rewrite (collect_columns_NoDup _ Hnodup).
  unfold create_one, emit.
  cbn [database accepts next_id trace table_name table_columns].
  destruct (database w !! name) as [existing|] eqn:Hdb.
  - cbn [mbind result_bind]. intros [= <- <- <-].
    cbn [table_name table_columns database default].
    split; [done|]. split; [|by rewrite Hdb].
    apply map_result_inv in Hc. eapply Forall2_impl; [exact Hc|].
    intros row column. apply build_column_name.
  - destruct (accepts w name columns); [|done].
    cbn [mbind result_bind]. intros [= <- <- <-].
    cbn [table_name table_columns database default].
    split; [done|]. split.
    + apply map_result_inv in Hc. eapply Forall2_impl; [exact Hc|].
      intros row column. apply build_column_name.
    + split; [apply lookup_insert_eq|].
      intros other Hne. by apply lookup_insert_ne.
Qed.

(** A database that has the table PERSON with one column, and the schema
    with two: the call returns a handle with two columns and leaves the
    table of the database as it was. *)
Lemma ensure_table_exists_returns_witness :
  let w := {| database := {[ "PERSON" :=
                    [ {| column_name := "ID"; column_type := types.Integer |} ] ]};
              accepts := accepts_all;
              next_id := 0; trace := [] |} in
  ∃ schema' w',
    ensure_table_exists "PERSON" {| getvalue := PERSON_rows; tell := 0 |} w
    = Ret (PERSON_table 0, schema', w') ∧
    database w' !! "PERSON"
    = Some [ {| column_name := "ID"; column_type := types.Integer |} ].
Proof.
  intros w.
  destruct (ensure_table_exists "PERSON" {| getvalue := PERSON_rows; tell := 0 |} w)
    as [[[table schema'] w']|] eqn:H; [|by vm_compute in H].
  assert (Hnodup : NoDup (Row.column <$>
                          getvalue {| getvalue := PERSON_rows; tell := 0 |})).
  { cbn. apply NoDup_cons. split; [|apply NoDup_singleton].
    by intros [=]%list_elem_of_singleton. }
  pose proof (ensure_table_exists_returns _ _ _ _ _ _ Hnodup H)
    as (_ & _ & Hdb & _).
  exists schema', w'.
  assert (Ht : table = PERSON_table 0).
  { rewrite ensure_table_exists_unfold in H. vm_compute in H.
    by injection H as <- _ _. }
  rewrite Ht. split; [done|]. exact Hdb.
Defined.

(** ** [get_field_type]: what a result tells about the text *)

(** The type name behind each kind of result. *)
Lemma get_field_type_ret (text : string) (ty : types.t) :
  get_field_type text = Ret ty →
  ∃ type args,
    match_field_type text = Some (type, args) ∧
    match ty with
    | types.Date => type = "DATE"
    | types.String _ => is_varchar type ∧ args ≠ None
    | _ => type = "NUMBER"
    end.
Proof.
  pose proof (get_field_type_cases text) as Hc.
  destruct (match_field_type text) as [[type args]|]; [|by rewrite Hc].
  intros Hret. exists type, args. split; [done|].
  destruct Hc as [[Hv Hc] | [[-> Hc] | [[-> Hc] | (Hv & Hn & Hd & Hc)]]];
    rewrite Hc in Hret; clear Hc.
  - destruct args as [a|]; [|done].
    destruct (int a); cbn [mbind result_bind] in Hret; [|done].
    by injection Hret as <-.
  - destruct args as [a|]; [|by injection Hret as <-].
    destruct (map_result int (re_split_comma false a))
      as [[|n1 [|n2 [|n3 ns]]]|]; cbn [mbind result_bind] in Hret; try done.
    + destruct (n1 <? 10)%Z; by injection Hret as <-.
    + by injection Hret as <-.
  - by injection Hret as <-.
  - done.
Qed.

(** X5.  The type returned tells the type name that the text starts with: DATE
    is returned exactly for the text DATE and the texts that start with
    [DATE(], whatever follows; a string type is returned only for a text
    that starts with [VARCHAR(] or [VARCHAR2(]; and an integer or numeric
    type only for the text NUMBER or a text that starts with [NUMBER(]. *)
Theorem get_field_type_result_names (text : string) :
  (get_field_type text = Ret types.Date ↔
   text = "DATE" ∨ ∃ r, text = "DATE(" +:+ r) ∧
  (∀ n, get_field_type text = Ret (types.String n) →
        ∃ r, text = "VARCHAR(" +:+ r ∨ text = "VARCHAR2(" +:+ r) ∧
  (∀ type, get_field_type text = Ret type →
           type = types.Integer ∨ type = types.BigInteger ∨
           (∃ p s, type = types.Numeric p s) →
           text = "NUMBER" ∨ ∃ r, text = "NUMBER(" +:+ r).
Proof.
  split; [split|split].
  - intros H. apply get_field_type_ret in H as (type & args & Hm & ->).
    apply match_field_type_text in Hm as [[-> _] | [r ->]]; [by left|].
    right. by exists r.
  - intros H.
    destruct (match_field_type_of_text text "DATE") as [args Hm]; [done..| |].
    { destruct H as [-> | [r ->]]; [by left | right; by exists r]. }
    unfold get_field_type. by rewrite Hm.
  - intros n H. apply get_field_type_ret in H as (type & args & Hm & Hv & Ha).
    apply match_field_type_text in Hm as [[_ ->] | [r ->]]; [done|].
    exists r. destruct Hv as [-> | ->]; [by left | by right].
  - intros ty H Hty. apply get_field_type_ret in H as (type & args & Hm & Hn).
    assert (type = "NUMBER") as ->.
    { by destruct Hty as [-> | [-> | (p & s & ->)]]. }
    apply match_field_type_text in Hm as [[-> _] | [r ->]]; [by left|].
    right. by exists r.
Qed.

(** X6.  An argument list that is not closed counts as no argument list:
    NUMBER then gives BIGINT, and VARCHAR and VARCHAR2 fail with a
    TypeError, whatever the text after the parenthesis is. *)
Theorem get_field_type_unclosed (r : string) :
  all_chars (not_char ")") r = true →
  get_field_type ("NUMBER(" +:+ r) = Ret types.BigInteger ∧
  get_field_type ("VARCHAR(" +:+ r) = Raise TypeError ∧
  get_field_type ("VARCHAR2(" +:+ r) = Raise TypeError.
Proof.
  intros Hr. unfold get_field_type.
  change ("NUMBER(" +:+ r) with ("NUMBER" +:+ String "(" r).
  change ("VARCHAR(" +:+ r) with ("VARCHAR" +:+ String "(" r).
  change ("VARCHAR2(" +:+ r) with ("VARCHAR2" +:+ String "(" r).
  by rewrite !match_field_type_unclosed by done.
Qed.

(** The text [NUMBER(10,2]. *)
Lemma get_field_type_unclosed_witness :
  get_field_type "NUMBER(10,2" = Ret types.BigInteger ∧
  get_field_type "VARCHAR(10,2" = Raise TypeError ∧
  get_field_type "VARCHAR2(10,2" = Raise TypeError.
Proof. apply (get_field_type_unclosed "10,2"). reflexivity. Defined.

(** ** The field-declaration pattern on a well-formed line *)

Lemma span_app_head (p : ascii → bool) (s t : string) :
  all_chars p s = true → head_is p t = false → span p (s +:+ t) = (s, t).
Proof.
  intros Hs Ht. destruct t as [|c t].
  - rewrite append_empty_r. by apply span_all.
  - by apply span_app.
Qed.

Lemma is_token_inv (tok : string) :
  is_token tok = true →
  ∃ c run, tok = String c run ∧ is_upper c = true ∧ run ≠ EmptyString ∧
           all_chars (λ c, negb (is_space c)) run = true.
Proof.
  destruct tok as [|c run]; [done|]. simpl.
  intros [[Hc Hne]%andb_true_iff Hrun]%andb_true_iff.
  exists c, run. repeat split; try done. by destruct run.
Qed.

Lemma is_spaces_inv (w : string) :
  is_spaces w = true → w ≠ EmptyString ∧ all_chars is_space w = true.
Proof.
  unfold is_spaces. intros [Hne Hw]%andb_true_iff. split; [|done].
  by destruct w.
Qed.

Lemma scan_token_spaces (tok w tail : string) :
  is_token tok = true → is_spaces w = true →
  scan_token (tok +:+ w +:+ tail) = Some (tok, w +:+ tail).
Proof.
  intros (c & run & -> & Hc & Hne & Hrun)%is_token_inv [Hw1 Hw2]%is_spaces_inv.
  destruct w as [|x w]; [done|]. simpl in Hw2.
  apply andb_true_iff in Hw2 as [Hx _].
  by apply scan_token_app.
Qed.

Lemma scan_spaces_app (w tail : string) :
  is_spaces w = true → head_is is_space tail = false →
  scan_spaces (w +:+ tail) = Some (w, tail).
Proof.
  intros [Hne Hw]%is_spaces_inv Ht. unfold scan_spaces.
  rewrite (span_app_head _ _ _ Hw Ht). by destruct w.
Qed.

Lemma scan_digits_app (ds tail : string) :
  ds ≠ EmptyString → all_chars is_digit ds = true →
  head_is is_digit tail = false →
  scan_digits (ds +:+ tail) = Some (ds, tail).
Proof.
  intros Hne Hds Ht. unfold scan_digits.
  rewrite (span_app_head _ _ _ Hds Ht). by destruct ds.
Qed.

Lemma upper_not_space : ∀ c, is_upper c = true → is_space c = false.
Proof. by_chars. Qed.

Lemma token_head_not_space (tok tail : string) :
  is_token tok = true → head_is is_space (tok +:+ tail) = false.
Proof.
  intros (c & run & -> & Hc & _)%is_token_inv. simpl.
  by apply upper_not_space.
Qed.

Lemma space_not_marker_char : ∀ x,
  is_space x = true →
  Ascii.eqb "N" x = false ∧ Ascii.eqb "O" x = false ∧ Ascii.eqb "T" x = false.
Proof. by_chars. Qed.

Lemma not_space_not_blank : ∀ x,
  negb (is_space x) = true → Ascii.eqb " " x = false.
Proof. by_chars. Qed.

(** The marker does not start at a token that white space and a
    parenthesis follow. *)
Lemma token_is_not_marker (tok w tail : string) :
  all_chars (λ c, negb (is_space c)) tok = true → is_spaces w = true →
  startswith "NOT NULL" (tok +:+ w +:+ String "(" tail) = false.
Proof.
  intros Htok [Hne Hw]%is_spaces_inv.
  destruct w as [|x w]; [done|]. simpl in Hw.
  apply andb_true_iff in Hw as [Hx Hw].
  destruct (space_not_marker_char x Hx) as (HxN & HxO & HxT).
  destruct tok as [|a1 [|a2 [|a3 [|a4 tok]]]];
    cbn [all_chars] in Htok; cbn [startswith String.append].
  - by rewrite HxN.
  - by rewrite HxO, andb_false_r.
  - by rewrite HxT, !andb_false_r.
  - destruct w as [|y w]; cbn [all_chars] in Hw;
      cbn [startswith String.append].
    + by rewrite !andb_false_r.
    + apply andb_true_iff in Hw as [Hy _].
      destruct (space_not_marker_char y Hy) as (HyN & _).
      by rewrite HyN, !andb_false_r.
  - apply andb_true_iff in Htok as [_ Htok].
    apply andb_true_iff in Htok as [_ Htok].
    apply andb_true_iff in Htok as [_ Htok].
    apply andb_true_iff in Htok as [H4 _].
    by rewrite (not_space_not_blank a4 H4), !andb_false_r.
Qed.

(** The second half of the pattern on [TYPE (start:end)]. *)
Lemma scan_type_and_columns_line (type w ds de rest : string) :
  is_token type = true → is_spaces w = true →
  ds ≠ EmptyString → all_chars is_digit ds = true →
  de ≠ EmptyString → all_chars is_digit de = true →
  scan_type_and_columns
    (type +:+ w +:+ String "(" (ds +:+ String ":" (de +:+ String ")" rest)))
  = Some (type, ds, de, rest).
Proof.
  intros Htype Hw Hds1 Hds2 Hde1 Hde2. unfold scan_type_and_columns.
  rewrite (scan_token_spaces type w _ Htype Hw). cbn [mbind option_bind].
  rewrite (scan_spaces_app w) by done. cbn [mbind option_bind scan_char].
  change (Ascii.eqb "(" "(") with true. cbv iota. cbn [mbind option_bind].
  rewrite (scan_digits_app ds) by done.
  cbn [mbind option_bind scan_char].
  change (Ascii.eqb ":" ":") with true. cbv iota. cbn [mbind option_bind].
  rewrite (scan_digits_app de) by done.
  cbn [mbind option_bind scan_char].
  change (Ascii.eqb ")" ")") with true. done.
Qed.

(** The pattern never takes the word NOT for a type when NULL follows. *)
Lemma scan_type_and_columns_marker (tail : string) :
  scan_type_and_columns ("NOT NULL" +:+ tail) = None.
Proof. reflexivity. Qed.

Lemma drop_str_append (p s : string) :
  drop_str (String.length p) (p +:+ s) = s.
Proof. induction p as [|c p IH]; simpl; [by destruct s | done]. Qed.

(** X7.  The marker has no effect on the match.  After a field name, white
    space, the marker NOT NULL and white space give what two or more
    white-space characters alone give, whatever text follows. *)
Theorem marker_has_no_effect (name w1 w2 wb tail : string) :
  is_token name = true →
  is_spaces w1 = true → is_spaces w2 = true →
  is_spaces wb = true → 2 ≤ String.length wb →
  head_is is_space tail = false →
  startswith "NOT NULL" tail = false →
  match_field_spec (name +:+ w1 +:+ "NOT NULL" +:+ w2 +:+ tail)
  = match_field_spec (name +:+ wb +:+ tail).
Proof.
  intros Hname Hw1 Hw2 Hwb Hlen Htail Hmarker. unfold match_field_spec.
  rewrite (scan_token_spaces name w1 _ Hname Hw1).
  rewrite (scan_token_spaces name wb _ Hname Hwb).
  cbn [mbind option_bind].
  rewrite (scan_spaces_app w1), (scan_spaces_app wb) by done.
  cbn [mbind option_bind]. f_equal.
  unfold scan_marker_type_columns.
  rewrite startswith_append, Hmarker.
  change 8 with (String.length "NOT NULL"). rewrite drop_str_append.
  rewrite (scan_spaces_app w2 _ Hw2 Htail). cbn [mbind option_bind].
  rewrite scan_type_and_columns_marker.
  apply Nat.leb_le in Hlen. rewrite Hlen.
  destruct (scan_type_and_columns tail); [done|].
  by destruct (2 <=? String.length w1).
Qed.

(** The line of FIRST_NAME in the specification's example. *)
Lemma marker_has_no_effect_witness :
  match_field_spec
    ("FIRST_NAME" +:+ "          " +:+ "NOT NULL" +:+ " "
     +:+ "VARCHAR2(20)    (1:20)")
  = match_field_spec ("FIRST_NAME" +:+ "  " +:+ "VARCHAR2(20)    (1:20)").
Proof.
  apply (marker_has_no_effect "FIRST_NAME" "          " " " "  "
           "VARCHAR2(20)    (1:20)"); (reflexivity || (simpl; lia)).
Defined.

Lemma str_nonneg_digits (n : Z) :
  (0 ≤ n)%Z → str n ≠ EmptyString ∧ all_chars is_digit (str n) = true.
Proof.
  intros Hn. split; [apply str_nonempty|]. unfold str.
  destruct n as [|p|p]; [done| |lia]. simpl Z.to_int.
  unfold NilZero.string_of_int, NilZero.string_of_uint.
  pose proof (Unsigned.to_uint_nonnil p) as Hp.
  destruct (Pos.to_uint p) eqn:E; try done; rewrite <- E;
    apply uint_string_digits.
Qed.

Lemma finditer_skip_all (s : string) (skip : nat) (bol : bool) :
  String.length s ≤ skip → finditer_field_specs skip bol s = [].
Proof.
  revert skip bol. induction s as [|c s IH]; intros skip bol; [done|].
  cbn [finditer_field_specs String.length]. intros Hlen.
  destruct skip as [|k]; [lia|]. apply IH. lia.
Qed.

Lemma is_token_no_space (tok : string) :
  is_token tok = true → all_chars (λ c, negb (is_space c)) tok = true.
Proof.
  intros (c & run & -> & Hc & _ & Hrun)%is_token_inv. simpl.
  by rewrite (upper_not_space c Hc), Hrun.
Qed.

(** The pattern on a whole line [NAME  TYPE (start:end)]. *)
Lemma match_field_spec_line (name w1 type w3 ds de rest : string) :
  is_token name = true → is_token type = true →
  is_spaces w1 = true → 2 ≤ String.length w1 → is_spaces w3 = true →
  ds ≠ EmptyString → all_chars is_digit ds = true →
  de ≠ EmptyString → all_chars is_digit de = true →
  match_field_spec
    (name +:+ w1 +:+ type +:+ w3
     +:+ String "(" (ds +:+ String ":" (de +:+ String ")" rest)))
  = Some ({| group_field_name := name; group_field_type := type;
             group_start_column := ds; group_end_column := de |}, rest).
Proof.
  intros Hname Htype Hw1 Hlen Hw3 Hds1 Hds2 Hde1 Hde2. unfold match_field_spec.
  rewrite (scan_token_spaces name w1 _ Hname Hw1). cbn [mbind option_bind].
  rewrite (scan_spaces_app w1) by (by try apply token_head_not_space).
  cbn [mbind option_bind]. unfold scan_marker_type_columns.
  rewrite token_is_not_marker by (by try apply is_token_no_space).
  apply Nat.leb_le in Hlen. rewrite Hlen.
  by rewrite scan_type_and_columns_line.
Qed.

(** X8.  A fragment that is one line [NAME  TYPE (start:end)], with two or more
    white-space characters after the name (line ends count), gives the
    schema of one row: the name, [start], [end - start + 1] and the type.
    Nothing asks that [end] is not before [start], so the length can be zero
    or negative. *)
Theorem field_line_gives_row (name w1 type w3 : string) (s e : Z) :
  is_token name = true → is_token type = true →
  is_spaces w1 = true → 2 ≤ String.length w1 → is_spaces w3 = true →
  (0 ≤ s)%Z → (0 ≤ e)%Z →
  extract_schema
    (name +:+ w1 +:+ type +:+ w3
     +:+ String "(" (str s +:+ String ":" (str e +:+ String ")" "")))
  = Ret {| getvalue :=
             [ {| Row.column := name; Row.start := str s;
                  Row.length := str (e - s + 1); Row.field_type := type |} ];
           tell := 0 |}.
Proof.
  intros Hname Htype Hw1 Hlen Hw3 Hs He.
  destruct (str_nonneg_digits s Hs) as [Hs1 Hs2].
  destruct (str_nonneg_digits e He) as [He1 He2].
  pose proof (match_field_spec_line name w1 type w3 (str s) (str e) ""
                Hname Htype Hw1 Hlen Hw3 Hs1 Hs2 He1 He2) as Hm.
  unfold extract_schema.
  destruct (is_token_inv _ Hname) as (c & run & -> & _).
  cbn [String.append] in Hm |- *. cbn [finditer_field_specs]. rewrite Hm.
  rewrite finditer_skip_all by (simpl; lia).
  unfold make_schema_io, make_row. cbn [map_result group_start_column
    group_end_column group_field_name group_field_type].
  by rewrite !int_str.
Qed.

(** The line [AGE  NUMBER(3) (5:3)], whose end is before its start. *)
Lemma field_line_gives_row_witness :
  extract_schema "AGE  NUMBER(3) (5:3)"
  = Ret {| getvalue :=
             [ {| Row.column := "AGE"; Row.start := "5";
                  Row.length := "-1"; Row.field_type := "NUMBER(3)" |} ];
           tell := 0 |}.
Proof.
  apply (field_line_gives_row "AGE" "  " "NUMBER(3)" " " 5 3);
    (reflexivity || (simpl; lia) || lia).
Defined.

(** ** [extract_table_schemas]: when it fails and what it returns *)

Lemma match_table_header_inv (s name : string) :
  match_table_header s = Some name →
  ∃ c run tail,
    name = String c run ∧ s = name +:+ " - " +:+ tail ∧
    is_upper c = true ∧ run ≠ EmptyString ∧
    all_chars (not_char " ") run = true.
Proof.
  unfold match_table_header. destruct s as [|c s]; [done|].
  destruct (is_upper c) eqn:Hc; [|done].
  change (λ c, negb (Ascii.eqb c " ")) with (not_char " ").
  pose proof (span_run_all (not_char " ") s) as Hall.
  pose proof (span_join (not_char " ") s) as Hjoin.
  destruct (span (not_char " ") s) as [run rest]. simpl in Hall, Hjoin.
  destruct (negb (is_empty run) && startswith " - " rest) eqn:Hb; [|done].
  apply andb_true_iff in Hb as [Hne Hrest].
  apply startswith_spec in Hrest as [tail ->]. intros [= <-].
  exists c, run, tail. repeat split; try done.
  - by rewrite <- Hjoin.
  - by destruct run.
Qed.

(** A name that the header pattern has found stands at some line start,
    so the search for it finds a place. *)
Lemma findall_in_search (name s : string) (pos skip : nat) (bol : bool) :
  name ∈ findall_table_names skip bol s →
  is_Some (search_line_start (name +:+ " - ") pos bol s).
Proof.
  revert pos skip bol. induction s as [|c s IH]; intros pos skip bol.
  { by intros ?%elem_of_nil. }
  cbn [findall_table_names search_line_start]. intros Hin.
  destruct (bol && startswith (name +:+ " - ") (String c s)) eqn:Hhere;
    [done|].
  destruct skip as [|k]; [|by eapply IH].
  destruct (if bol then match_table_header (String c s) else None)
    as [found|] eqn:Hm; [|by eapply IH].
  apply elem_of_cons in Hin as [-> | Hin]; [|by eapply IH].
  destruct bol; [|done].
  apply match_table_header_inv in Hm as (? & ? & tail & _ & Hs & _).
  rewrite Hs in Hhere. rewrite <- append_assoc in Hhere.
  by rewrite startswith_append in Hhere.
Qed.

(** [get_table_start] on a name that was found: it returns the name with an
    offset, or the name is not a literal pattern. *)
Lemma get_table_start_found (readme name : string) :
  name ∈ findall_table_names 0 true readme →
  if is_literal name
  then ∃ start, get_table_start readme name = Ret (name, start)
  else get_table_start readme name = Raise PatternNotLiteral.
Proof.
  intros Hin. unfold get_table_start, is_literal.
  destruct (all_chars _ name); [|done].
  destruct (findall_in_search name readme 0 0 true Hin) as [start ->].
  by exists start.
Qed.

Lemma get_table_starts_found (readme : string) (names : list string) :
  Forall (λ name, name ∈ findall_table_names 0 true readme) names →
  (∃ table_starts,
     map_result (get_table_start readme) names = Ret table_starts ∧
     table_starts.*1 = names ∧
     Forall (λ name, is_literal name = true) names) ∨
  (map_result (get_table_start readme) names = Raise PatternNotLiteral ∧
   Exists (λ name, is_literal name = false) names).
Proof.
  induction 1 as [|name names Hin _ IH]; [left; by exists []|].
  cbn [map_result]. pose proof (get_table_start_found readme name Hin) as Hs.
  destruct (is_literal name) eqn:Hlit.
  - destruct Hs as [start ->]. cbn [mbind result_bind].
    destruct IH as [(table_starts & -> & Hnames & Hall) | [-> Hex]].
    + left. exists ((name, start) :: table_starts). cbn [mbind result_bind].
      repeat split; [by rewrite fmap_cons, Hnames | by constructor].
    + right. split; [done | by right].
  - rewrite Hs. right. split; [done | by left].
Qed.

Lemma snd_enumerate {A : Type} (xs : list A) : (enumerate xs).*2 = xs.
Proof.
  unfold enumerate. apply list_eq. intros i.
  rewrite list_lookup_fmap, list_lookup_imap. by destruct (xs !! i).
Qed.

(** [get_table_end] returns for every table of the list: the table after
    the last index is never asked for, because the name at the last index is
    the last name. *)
Lemma get_table_ends_return (table_starts : list (string * nat))
    (last_table_name : string) :
  last (table_starts.*1) = Some last_table_name →
  ∃ table_info,
    map_result (λ '(i, info),
                  get_table_end table_starts last_table_name i info)
               (enumerate table_starts) = Ret table_info ∧
    table_info.*1 = table_starts.
Proof.
  intros Hlast.
  destruct (map_result_Forall2
              (λ '(i, info), get_table_end table_starts last_table_name i info)
              (λ ix out, out.1 = ix.2) (enumerate table_starts))
    as (table_info & Hmap & HF).
  - apply Forall_forall. intros [i [name start]] Hin.
    apply list_elem_of_lookup in Hin as [k Hk]. unfold enumerate in Hk.
    apply list_lookup_imap_Some in Hk as (x & Hx & ?). simplify_eq.
    unfold get_table_end.
    destruct (decide (name = last_table_name)) as [->|Hne].
    { rewrite bool_decide_eq_true_2 by done. eauto. }
    rewrite bool_decide_eq_false_2 by done.
    destruct (table_starts !! (k + 1)) as [[n e]|] eqn:Hnext; [eauto|].
    exfalso. apply lookup_ge_None in Hnext.
    pose proof (lookup_lt_Some _ _ _ Hx) as Hlt.
    rewrite last_lookup, length_fmap, list_lookup_fmap in Hlast.
    replace (pred (length table_starts)) with k in Hlast by lia.
    rewrite Hx in Hlast. simpl in Hlast. congruence.
  - exists table_info. split; [done|].
    transitivity ((enumerate table_starts).*2); [|apply snd_enumerate].
    clear Hmap. induction HF as [|ix out ixs outs Heq _ IH]; [done|].
    by rewrite !fmap_cons, Heq, IH.
Qed.

(** The loop always ends with a mapping, whose keys are the keys it had
    and the names of the list. *)
Lemma fill_schemas_returns (readme : string)
    (table_info : list (string * nat * option nat))
    (schemas : gmap string StringIO) :
  ∃ out, fill_schemas readme table_info schemas = Ret out ∧
         dom out = dom schemas ∪ list_to_set (table_info.*1.*1).
Proof.
  revert schemas. induction table_info as [|[[n a] b] infos IH];
    intros schemas; cbn [fill_schemas].
  - exists schemas. split; [done|]. cbn [fmap list_fmap list_to_set foldr].
    by rewrite (right_id_L ∅ (∪)).
  - destruct (extract_schema_rows (slice readme a b)) as (rows & -> & _).
    cbn [mbind result_bind].
    destruct (IH (<[n := {| getvalue := rows; tell := 0 |}]> schemas))
      as (out & -> & Hdom).
    exists out. split; [done|]. rewrite Hdom, dom_insert_L.
    rewrite !fmap_cons, list_to_set_cons. cbn [fst].
    by rewrite (comm_L (∪) {[n]} (dom schemas)), (assoc_L (∪)).
Qed.

(** X9.  [extract_table_schemas] fails with an IndexError exactly when the
    document has no header line: the last table name is then asked of an
    empty list.  No other step can raise it. *)
Theorem no_header_is_IndexError (readme : string) :
  extract_table_schemas readme = Raise IndexError ↔
  findall_table_names 0 true readme = [].
Proof.
  unfold extract_table_schemas.
  destruct (findall_table_names 0 true readme) as [|name names] eqn:Hnames.
  { done. }
  split; [|done]. intros Hraise. exfalso.
  destruct (get_table_starts_found readme (name :: names))
    as [(table_starts & Hst & Hfst & _) | [Hst _]].
  - rewrite <- Hnames. apply Forall_forall. auto.
  - rewrite Hst in Hraise. cbn [mbind result_bind] in Hraise.
    destruct (last (name :: names)) as [last_table_name|] eqn:Hlast.
    2:{ by apply last_None in Hlast. }
    cbn [mbind result_bind] in Hraise.
    destruct (get_table_ends_return table_starts last_table_name)
      as (table_info & Hinfo & _); [by rewrite Hfst|].
    rewrite Hinfo in Hraise. cbn [mbind result_bind] in Hraise.
    destruct (fill_schemas_returns readme table_info ∅) as (out & Hout & _).
    by rewrite Hout in Hraise.
  - rewrite Hst in Hraise. done.
Qed.

(** X10.  When the document has a header and no table name holds a character
    that is special in a pattern, [extract_table_schemas] returns, and the
    keys of the mapping are exactly the names that the header pattern
    finds; each schema is left at its beginning. *)
Theorem extract_table_schemas_returns (readme : string) :
  findall_table_names 0 true readme ≠ [] →
  Forall (λ name, is_literal name = true) (findall_table_names 0 true readme) →
  ∃ schemas,
    extract_table_schemas readme = Ret schemas ∧
    dom schemas = list_to_set (findall_table_names 0 true readme) ∧
    map_Forall (λ _ io, tell io = 0) schemas.
Proof.
  intros Hne Hlit. unfold extract_table_schemas.
  destruct (get_table_starts_found readme (findall_table_names 0 true readme))
    as [(table_starts & Hst & Hfst & _) | [_ Hex]].
  - apply Forall_forall. auto.
  - rewrite Hst. cbn [mbind result_bind].
    destruct (last (findall_table_names 0 true readme))
      as [last_table_name|] eqn:Hlast.
    2:{ by apply last_None in Hlast. }
    cbn [mbind result_bind].
    destruct (get_table_ends_return table_starts last_table_name)
      as (table_info & Hinfo & Hnames); [by rewrite Hfst|].
    rewrite Hinfo. cbn [mbind result_bind].
    destruct (fill_schemas_returns readme table_info ∅) as (out & Hout & Hdom).
    exists out. split; [done|]. split.
    + by rewrite Hdom, Hnames, Hfst, dom_empty_L, (left_id_L ∅ (∪)).
    + intros name io Hio.
      destruct (fill_schemas_lookup _ _ _ _ _ _ Hout Hio)
        as [Hin | (a & b & _ & Hex)]; [by rewrite lookup_empty in Hin|].
      destruct (extract_schema_rows (slice readme a b)) as (rows & Hrows & _).
      rewrite Hrows in Hex. by injection Hex as <-.
  - exfalso. apply Exists_exists in Hex as (name & Hin & Hfalse).
    rewrite Forall_forall in Hlit. rewrite (Hlit name Hin) in Hfalse. done.
Qed.

(** The PERSON fragment of the specification's example. *)
Lemma extract_table_schemas_returns_witness :
  ∃ schemas,
    extract_table_schemas PERSON_readme = Ret schemas ∧
    dom schemas = list_to_set (findall_table_names 0 true PERSON_readme) ∧
    map_Forall (λ _ io, tell io = 0) schemas.
Proof.
  apply (extract_table_schemas_returns PERSON_readme).
  - by vm_compute.
  - vm_compute. by repeat constructor.
Defined.

(** ** [extract_table_schemas]: the fragments of tables with distinct names *)

Lemma findall_table_headers_names (s : string) (pos skip : nat) (bol : bool) :
  (findall_table_headers pos skip bol s).*1 = findall_table_names skip bol s.
Proof.
  revert pos skip bol. induction s as [|c s IH]; intros pos skip bol; [done|].
  cbn [findall_table_headers findall_table_names].
  destruct skip as [|k]; [|apply IH].
  destruct (if bol then match_table_header (String c s) else None);
    [|apply IH].
  by rewrite fmap_cons, IH.
Qed.

(** A text has one first word before its first space. *)
Lemma first_word_unique (a b x y : string) :
  all_chars (not_char " ") a = true → all_chars (not_char " ") b = true →
  a +:+ String " " x = b +:+ String " " y → a = b.
Proof.
  revert b. induction a as [|c a IH]; intros [|d b]; simpl; try done.
  - intros _ [Hd _]%andb_true_iff [= <- _]. done.
  - intros [Hc _]%andb_true_iff _ [= -> _]. done.
  - intros [_ Ha]%andb_true_iff [_ Hb]%andb_true_iff [= -> Heq].
    f_equal. by apply IH.
Qed.

Lemma match_table_header_of_text (c : ascii) (run tail : string) :
  is_upper c = true → run ≠ EmptyString →
  all_chars (not_char " ") run = true →
  match_table_header (String c run +:+ " - " +:+ tail) = Some (String c run).
Proof.
  intros Hc Hne Hrun. unfold match_table_header. cbn [String.append].
  rewrite Hc. change (λ c, negb (Ascii.eqb c " ")) with (not_char " ").
  change (" - " +:+ tail) with (String " " ("- " +:+ tail)).
  rewrite (span_app (not_char " ") run " " _ Hrun eq_refl).
  by destruct run.
Qed.

Lemma take_str_append (p s : string) :
  take_str (String.length p) (p +:+ s) = p.
Proof. induction p as [|c p IH]; simpl; [by destruct s | by rewrite IH]. Qed.

Lemma not_LF_is_upper : ∀ c, is_upper c = true → not_char " " c = true.
Proof. by_chars. Qed.

Lemma header_name_no_space (name : string) :
  header_name name → all_chars (not_char " ") name = true.
Proof.
  intros (c & run & -> & Hc & _ & Hrun). simpl.
  by rewrite (not_LF_is_upper c Hc), Hrun.
Qed.

(** Where no table name holds a line end, the search for a name finds the
    first header of that name. *)
Lemma search_finds_first_header (name s : string) (pos skip : nat)
    (bol : bool) :
  header_name name →
  (skip = 0 ∨ bol = false) →
  all_chars (not_char LF) (take_str skip s) = true →
  Forall (λ n, all_chars (not_char LF) n = true)
         (findall_table_names skip bol s) →
  search_line_start (name +:+ " - ") pos bol s
  = first_offset name (findall_table_headers pos skip bol s).
Proof.
  intros Hname. revert pos skip bol.
  induction s as [|c s IH]; intros pos skip bol Hskip Htake Hlf.
  { cbn [search_line_start findall_table_headers first_offset].
    destruct Hname as (? & ? & -> & _). by rewrite andb_false_r. }
  cbn [search_line_start findall_table_headers].
  cbn [findall_table_names] in Hlf.
  destruct skip as [|k].
  2:{ destruct Hskip as [? | ->]; [done|]. cbn [andb].
      cbn [take_str all_chars] in Htake.
      apply andb_true_iff in Htake as [Hc Htake].
      apply IH; [|done..]. right. unfold not_char in Hc.
      by apply negb_true_iff in Hc. }
  destruct bol.
  2:{ cbn [andb]. apply IH; [by left | done | done]. }
  cbn [andb].
  destruct (match_table_header (String c s)) as [found|] eqn:Hm.
  - pose proof Hm as (c' & run & tail & Hfound & Hs & Hc' & Hrun1 & Hrun2)%match_table_header_inv.
    apply Forall_cons in Hlf as [Hfound_lf Hlf].
    cbn [first_offset].
    destruct (decide (found = name)) as [->|Hne].
    + rewrite bool_decide_eq_true_2 by done.
      rewrite Hs, <- append_assoc, startswith_append. done.
    + rewrite bool_decide_eq_false_2 by done.
      destruct (startswith (name +:+ " - ") (String c s)) eqn:Hsw.
      { exfalso. apply Hne. apply startswith_spec in Hsw as [r Hr].
        rewrite Hs in Hr.
        rewrite !append_assoc in Hr.
        change (" - " +:+ tail) with (String " " ("- " +:+ tail)) in Hr.
        change (" - " +:+ r) with (String " " ("- " +:+ r)) in Hr.
        eapply first_word_unique; [| |exact Hr].
        - apply header_name_no_space. by exists c', run.
        - by apply header_name_no_space. }
      rewrite Hfound in Hs. cbn [String.append] in Hs.
      injection Hs as -> ->.
      rewrite Hfound in Hfound_lf. cbn [all_chars] in Hfound_lf.
      apply andb_true_iff in Hfound_lf as [Hc_lf Hrun_lf].
      apply IH; [| |done].
      * right. unfold not_char in Hc_lf. by apply negb_true_iff in Hc_lf.
      * rewrite Hfound. cbn [String.length].
        replace (S (String.length run) + 2)
          with (String.length (run +:+ " - "))
          by (rewrite length_append; simpl; lia).
        replace (run +:+ String " " (String "-" (String " " tail)))
          with ((run +:+ " - ") +:+ tail) by (by rewrite append_assoc).
        rewrite take_str_append.
        by rewrite all_chars_app, Hrun_lf.
  - destruct (startswith (name +:+ " - ") (String c s)) eqn:Hsw.
    { exfalso. apply startswith_spec in Hsw as [r Hr].
      destruct Hname as (c' & run & -> & Hc' & Hrun1 & Hrun2).
      rewrite Hr, append_assoc in Hm.
      by rewrite match_table_header_of_text in Hm. }
    apply IH; [by left | done | done].
Qed.

Lemma findall_names_shape (s : string) (skip : nat) (bol : bool) :
  Forall header_name (findall_table_names skip bol s).
Proof.
  apply findall_table_names_Forall. intros s' name Hm.
  apply match_table_header_inv in Hm as (c & run & _ & -> & _ & ? & ? & ?).
  by exists c, run.
Qed.

Lemma first_offset_nodup (headers : list (string * nat)) (i : nat)
    (name : string) (start : nat) :
  NoDup headers.*1 → headers !! i = Some (name, start) →
  first_offset name headers = Some start.
Proof.
  revert i. induction headers as [|[n o] headers IH]; intros i; [done|].
  rewrite fmap_cons. intros [Hn Hnd]%NoDup_cons Hi. cbn [first_offset].
  destruct i as [|i]; simpl in Hi.
  - injection Hi as -> ->. by rewrite bool_decide_eq_true_2.
  - rewrite bool_decide_eq_false_2; [by eapply IH|].
    intros ->. apply Hn. apply list_elem_of_fmap. exists (name, start).
    split; [done|]. apply list_elem_of_lookup. eauto.
Qed.

(** The offset of a header is the place of its text. *)
Lemma findall_table_headers_offset (s : string) (pos skip : nat) (bol : bool)
    (name : string) (start : nat) :
  (name, start) ∈ findall_table_headers pos skip bol s →
  pos ≤ start ∧ startswith (name +:+ " - ") (drop_str (start - pos) s) = true.
Proof.
  revert pos skip bol. induction s as [|c s IH]; intros pos skip bol.
  { by intros ?%elem_of_nil. }
  cbn [findall_table_headers].
  assert (Hnext : ∀ k b, (name, start) ∈ findall_table_headers (S pos) k b s →
            pos ≤ start ∧
            startswith (name +:+ " - ") (drop_str (start - pos) (String c s))
            = true).
  { intros k b Hin. destruct (IH _ _ _ Hin) as [Hle Hsw]. split; [lia|].
    replace (start - pos) with (S (start - S pos)) by lia. done. }
  destruct skip as [|k]; [|apply Hnext].
  destruct (if bol then match_table_header (String c s) else None)
    as [found|] eqn:Hm; [|apply Hnext].
  intros [[= -> ->] | Hin]%elem_of_cons; [|by eapply Hnext].
  split; [done|]. rewrite Nat.sub_diag. cbn [drop_str].
  destruct bol; [|done].
  apply match_table_header_inv in Hm as (? & ? & tail & _ & -> & _).
  by rewrite <- append_assoc, startswith_append.
Qed.

Lemma map_result_fmap_ret {A B : Type} (f : A → result B) (g : B → A)
    (ys : list B) :
  Forall (λ y, f (g y) = Ret y) ys → map_result f (g <$> ys) = Ret ys.
Proof.
  induction 1 as [|y ys Hy _ IH]; [done|].
  rewrite fmap_cons. cbn [map_result]. by rewrite Hy, IH.
Qed.

Lemma map_result_imap {A B C : Type} (f : C → result B) (h : nat → A → C)
    (g : nat → A → B) (xs : list A) :
  (∀ i x, xs !! i = Some x → f (h i x) = Ret (g i x)) →
  map_result f (imap h xs) = Ret (imap g xs).
Proof.
  revert h g. induction xs as [|x xs IH]; intros h g Hf; [done|].
  cbn [imap map_result]. rewrite (Hf 0 x eq_refl). cbn [mbind result_bind].
  rewrite (IH (h ∘ S) (g ∘ S)); [done|].
  intros i y Hi. apply (Hf (S i) y Hi).
Qed.

(** With distinct names, a table ends at the start of the table after it,
    and the last one has no end. *)
Lemma get_table_end_nodup (headers : list (string * nat))
    (last_table_name : string) (i : nat) (name : string) (start : nat) :
  NoDup headers.*1 → last (headers.*1) = Some last_table_name →
  headers !! i = Some (name, start) →
  get_table_end headers last_table_name i (name, start)
  = Ret (name, start, snd <$> headers !! (S i)).
Proof.
  intros Hnd Hlast Hi. unfold get_table_end.
  rewrite last_lookup, length_fmap in Hlast.
  pose proof (lookup_lt_Some _ _ _ Hi) as Hlt.
  assert (Hname : headers.*1 !! i = Some name)
    by (by rewrite list_lookup_fmap, Hi).
  replace (i + 1) with (S i) by lia.
  destruct (decide (name = last_table_name)) as [->|Hne].
  - rewrite bool_decide_eq_true_2 by done.
    pose proof (NoDup_lookup _ _ _ _ Hnd Hname Hlast) as Heq.
    rewrite (proj2 (lookup_ge_None headers (S i))) by lia. done.
  - rewrite bool_decide_eq_false_2 by done.
    destruct (headers !! S i) as [[n e]|] eqn:Hnext; [done|].
    exfalso. apply lookup_ge_None in Hnext.
    replace (pred (length headers)) with i in Hlast by lia. congruence.
Qed.

Lemma fill_schemas_keeps (readme : string)
    (table_info : list (string * nat * option nat))
    (schemas out : gmap string StringIO) (name : string) :
  name ∉ table_info.*1.*1 →
  fill_schemas readme table_info schemas = Ret out →
  out !! name = schemas !! name.
Proof.
  revert schemas. induction table_info as [|[[n a] b] infos IH];
    intros schemas; cbn [fill_schemas].
  - by intros _ [= <-].
  - rewrite !fmap_cons. cbn [fst]. intros [Hne Hnot]%not_elem_of_cons.
    destruct (extract_schema (slice readme a b)) as [schema|]; [|done].
    cbn [mbind result_bind]. intros Hfill.
    rewrite (IH _ Hnot Hfill). by apply lookup_insert_ne.
Qed.

(** With distinct names, each table of the list keeps the schema of its
    own fragment. *)
Lemma fill_schemas_lookup_nodup (readme : string)
    (table_info : list (string * nat * option nat))
    (schemas out : gmap string StringIO) (i : nat) (name : string)
    (table_start : nat) (table_end : option nat) :
  NoDup table_info.*1.*1 →
  table_info !! i = Some (name, table_start, table_end) →
  fill_schemas readme table_info schemas = Ret out →
  ∃ io, extract_schema (slice readme table_start table_end) = Ret io ∧
        out !! name = Some io.
Proof.
  revert schemas i. induction table_info as [|[[n a] b] infos IH];
    intros schemas i; [done|].
  rewrite !fmap_cons. cbn [fst fill_schemas].
  intros [Hn Hnd]%NoDup_cons Hi.
  destruct (extract_schema (slice readme a b)) as [schema|] eqn:Hs; [|done].
  cbn [mbind result_bind]. intros Hfill.
  destruct i as [|i]; simpl in Hi.
  - injection Hi as -> -> ->. exists schema. split; [done|].
    rewrite (fill_schemas_keeps _ _ _ _ _ Hn Hfill).
    apply lookup_insert_eq.
  - by eapply IH.
Qed.

(** X11.  When the table names of the document are distinct, hold no character
    that is special in a pattern and no line end, [extract_table_schemas]
    gives every table the schema of its own fragment: the text from the
    offset of its header to the offset of the next header, and to the end
    of the document for the last one. *)
Theorem distinct_tables_get_their_fragments (readme : string)
    (headers : list (string * nat)) :
  headers = findall_table_headers 0 0 true readme →
  headers ≠ [] →
  NoDup headers.*1 →
  Forall (λ name, is_literal name = true ∧
                  all_chars (not_char LF) name = true) headers.*1 →
  ∃ schemas,
    extract_table_schemas readme = Ret schemas ∧
    ∀ i name start,
      headers !! i = Some (name, start) →
      startswith (name +:+ " - ") (drop_str start readme) = true ∧
      ∃ io, schemas !! name = Some io ∧
            extract_schema (slice readme start (snd <$> headers !! S i))
            = Ret io.
Proof.
  intros Hheaders Hne Hnd Hnames.
  assert (Hfst : findall_table_names 0 true readme = headers.*1).
  { by rewrite Hheaders, findall_table_headers_names. }
  assert (Hstarts : map_result (get_table_start readme) headers.*1
                    = Ret headers).
  { apply map_result_fmap_ret, Forall_forall. intros [name start] Hin.
    apply list_elem_of_lookup in Hin as [i Hi]. cbn [fst].
    assert (Hname : name ∈ headers.*1).
    { apply list_elem_of_fmap. exists (name, start). split; [done|].
      apply list_elem_of_lookup. eauto. }
    rewrite Forall_forall in Hnames. destruct (Hnames name Hname) as [Hlit _].
    unfold get_table_start. unfold is_literal in Hlit. rewrite Hlit.
    rewrite (search_finds_first_header name readme 0 0 true).
    - by rewrite <- Hheaders, (first_offset_nodup headers i name start).
    - pose proof (findall_names_shape readme 0 true) as Hshape.
      rewrite Hfst, Forall_forall in Hshape. auto.
    - by left.
    - done.
    - rewrite Hfst. apply Forall_forall. intros n Hn.
      by destruct (Hnames n Hn). }
  destruct (last headers.*1) as [last_table_name|] eqn:Hlast.
  2:{ apply last_None, fmap_nil_inv in Hlast. done. }
  assert (Hinfo :
    map_result (λ '(i, info), get_table_end headers last_table_name i info)
               (enumerate headers)
    = Ret (imap (λ i h, (h.1, h.2, snd <$> headers !! S i)) headers)).
  { unfold enumerate. apply map_result_imap. intros i [name start] Hi.
    by apply get_table_end_nodup. }
  destruct (fill_schemas_returns readme
              (imap (λ i h, (h.1, h.2, snd <$> headers !! S i)) headers) ∅)
    as (schemas & Hfill & _).
  exists schemas. split.
  { unfold extract_table_schemas.
    rewrite Hfst, Hstarts. cbn [mbind result_bind].
    rewrite Hlast. cbn [mbind result_bind].
    rewrite Hinfo. cbn [mbind result_bind]. exact Hfill. }
  intros i name start Hi. split.
  - assert (Hin : (name, start) ∈ findall_table_headers 0 0 true readme).
    { rewrite <- Hheaders. apply list_elem_of_lookup. eauto. }
    apply findall_table_headers_offset in Hin as [_ Hsw].
    by rewrite Nat.sub_0_r in Hsw.
  - cut (∃ io, extract_schema
                   (slice readme start (snd <$> headers !! S i)) = Ret io ∧
                 schemas !! name = Some io).
    { intros (io & ? & ?). by exists io. }
    eapply (fill_schemas_lookup_nodup readme _ ∅ schemas i); [| |exact Hfill].
    + replace ((imap (λ i h, (h.1, h.2, snd <$> headers !! S i)) headers).*1.*1)
        with headers.*1; [done|].
      apply list_eq. intros k.
      rewrite !list_lookup_fmap, list_lookup_imap.
      by destruct (headers !! k).
    + by rewrite list_lookup_imap, Hi.
Qed.

(** The document with the tables PERSON, at offset 0, and ADDRESS, at
    offset 43. *)
Lemma distinct_tables_witness :
  ∃ schemas,
    extract_table_schemas two_tables_readme = Ret schemas ∧
    ∀ i name start,
      [("PERSON", 0); ("ADDRESS", 43)] !! i = Some (name, start) →
      startswith (name +:+ " - ") (drop_str start two_tables_readme) = true ∧
      ∃ io, schemas !! name = Some io ∧
            extract_schema
              (slice two_tables_readme start
                 (snd <$> [("PERSON", 0); ("ADDRESS", 43)] !! S i))
            = Ret io.
Proof.
  apply (distinct_tables_get_their_fragments two_tables_readme
           [("PERSON", 0); ("ADDRESS", 43)]).
  - vm_compute. reflexivity.
  - discriminate.
  - cbn [fmap list_fmap fst]. apply NoDup_cons. split.
    + by intros [=]%list_elem_of_singleton.
    + apply NoDup_singleton.
  - repeat constructor; vm_compute; reflexivity.
Defined.

(** ** The header pattern across line ends *)

(** After a match that ends with a space the scan goes on in the middle of
    a line. *)
Lemma findall_table_names_skip (p tail : string) (bol : bool) :
  findall_table_names (String.length (p +:+ " ")) bol ((p +:+ " ") +:+ tail)
  = findall_table_names 0 false tail.
Proof.
  revert bol. induction p as [|c p IH]; intros bol.
  - cbn [String.append String.length findall_table_names].
    by destruct tail.
  - cbn [String.append String.length findall_table_names]. apply IH.
Qed.

(** X12.  The table name runs from a capital letter at a line start to the first
    space, across line ends: a line of one word before a header line is
    taken into the table name, and the header line gives no table of its
    own. *)
Theorem table_name_crosses_lines (word name tail : string) :
  is_header_name word = true →
  all_chars (not_char " ") name = true →
  findall_table_names 0 true
    (word +:+ String LF (name +:+ " - " +:+ tail))
  = (word +:+ String LF name) :: findall_table_names 0 false tail.
Proof.
  intros Hword Hname.
  destruct word as [|c run]; [done|]. cbn [is_header_name] in Hword.
  apply andb_true_iff in Hword as [[Hc Hne]%andb_true_iff Hrun].
  assert (Hm : match_table_header
                 (String c run +:+ String LF (name +:+ " - " +:+ tail))
               = Some (String c run +:+ String LF name)).
  { pose proof (match_table_header_of_text c (run +:+ String LF name) tail Hc)
      as H. cbn [String.append] in H |- *.
    rewrite !append_assoc in H. cbn [String.append] in H. apply H.
    - by destruct run.
    - by rewrite all_chars_app, Hrun. }
  cbn [String.append] in Hm |- *. cbn [findall_table_names]. rewrite Hm.
  f_equal.
  replace (String.length (String c (run +:+ String LF name)) + 2)
    with (String.length ((run +:+ String LF (name +:+ " -")) +:+ " ")).
  2:{ cbn [String.length]. rewrite !length_append. cbn [String.length].
      rewrite !length_append. simpl. lia. }
  assert (Heq : run +:+ String LF
                    (name +:+ String " " (String "-" (String " " tail)))
                = ((run +:+ String LF (name +:+ " -")) +:+ " ") +:+ tail).
  { rewrite !append_assoc. cbn [String.append]. by rewrite !append_assoc. }
  rewrite Heq. apply findall_table_names_skip.
Qed.

(** A document that starts with the line [Overview] before the header of
    PERSON. *)
Lemma table_name_crosses_lines_witness :
  findall_table_names 0 true
    ("Overview" +:+ String LF ("PERSON" +:+ " - " +:+ "people"))
  = ("Overview" +:+ String LF "PERSON") :: findall_table_names 0 false "people".
Proof.
  apply (table_name_crosses_lines "Overview" "PERSON" "people");
    reflexivity.
Defined.

(** ** A section without field declarations *)

Lemma scan_type_and_columns_paren (s : string) (r : string * string * string * string) :
  scan_type_and_columns s = Some r → all_chars (not_char "(") s = false.
Proof.
  unfold scan_type_and_columns.
  destruct (scan_token s) as [[ft s1]|] eqn:H1; [|done].
  cbn [mbind option_bind].
  destruct (scan_spaces s1) as [[w s2]|] eqn:H2; [|done].
  cbn [mbind option_bind].
  destruct (scan_char "(" s2) as [s3|] eqn:H3; [|done]. intros _.
  apply scan_token_spec in H1 as (-> & _).
  apply scan_spaces_spec in H2 as (-> & _).
  apply scan_char_spec in H3 as ->.
  rewrite !all_chars_app. cbn [all_chars].
  change (not_char "(" "(") with false. by rewrite !andb_false_r.
Qed.

Lemma match_field_spec_paren (s : string) (m : Match) (rest : string) :
  match_field_spec s = Some (m, rest) → all_chars (not_char "(") s = false.
Proof.
  unfold match_field_spec.
  destruct (scan_token s) as [[fn s1]|] eqn:H1; [|done].
  cbn [mbind option_bind].
  destruct (scan_spaces s1) as [[w1 s2]|] eqn:H2; [|done].
  cbn [mbind option_bind].
  destruct (scan_marker_type_columns w1 s2) as [r|] eqn:Ho; [|done].
  intros _.
  apply scan_token_spec in H1 as (-> & _).
  apply scan_spaces_spec in H2 as (-> & _).
  rewrite !all_chars_app.
  assert (all_chars (not_char "(") s2 = false) as ->;
    [|by rewrite !andb_false_r].
  unfold scan_marker_type_columns in Ho.
  destruct (startswith "NOT NULL" s2) eqn:Hsw.
  - apply startswith_spec in Hsw as [tail ->].
    change 8 with (String.length "NOT NULL") in Ho.
    rewrite drop_str_append in Ho.
    destruct (scan_spaces tail) as [[w2 s3]|] eqn:H3; cbn [mbind option_bind] in Ho.
    + destruct (scan_type_and_columns s3) as [r'|] eqn:Hs.
      * apply scan_spaces_spec in H3 as (-> & _).
        apply scan_type_and_columns_paren in Hs.
        rewrite !all_chars_app, Hs. by rewrite !andb_false_r.
      * by rewrite scan_type_and_columns_marker in Ho;
          destruct (2 <=? String.length w1).
    + by rewrite scan_type_and_columns_marker in Ho;
        destruct (2 <=? String.length w1).
  - destruct (2 <=? String.length w1); [|done].
    by apply scan_type_and_columns_paren in Ho.
Qed.

Lemma finditer_without_paren (s : string) (skip : nat) (bol : bool) :
  all_chars (not_char "(") s = true → finditer_field_specs skip bol s = [].
Proof.
  revert skip bol. induction s as [|c s IH]; intros skip bol Hs; [done|].
  cbn [finditer_field_specs].
  pose proof Hs as [_ Hs']%andb_true_iff.
  destruct skip as [|k]; [|by apply IH].
  destruct bol; [|by apply IH].
  destruct (match_field_spec (String c s)) as [[m rest]|] eqn:Hm;
    [|by apply IH].
  apply match_field_spec_paren in Hm. congruence.
Qed.

(** X13.  A table whose section declares no field has no column: a
    fragment that holds no opening parenthesis has the empty schema.  For a
    table that the database does not have, [ensure_table_exists] then sends
    a CREATE TABLE without columns: where the database takes such a table,
    the call returns the handle of a table of no column and the database has
    that table; where the database refuses it, the call fails with the
    error of the database. *)
Theorem table_without_fields_has_no_column
    (fragment name : string) (w : World) :
  all_chars (not_char "(") fragment = true →
  database w !! name = None →
  ∃ schema,
    extract_schema fragment = Ret schema ∧
    getvalue schema = [] ∧
    (accepts w name [] = true →
     ∃ table schema' w',
       ensure_table_exists name schema w = Ret (table, schema', w') ∧
       table_columns table = [] ∧
       database w' !! name = Some [] ∧
       trace w' = trace w ++ [sql_has_table name; sql_create_table name [];
                              info_created name]) ∧
    (accepts w name [] = false →
     ensure_table_exists name schema w = Raise DatabaseError).
Proof.
  intros Hfragment Hnew.
  exists {| getvalue := []; tell := 0 |}.
  unfold extract_schema. rewrite (finditer_without_paren _ 0 true Hfragment).
  split; [done|]. split; [done|]. split.
  - intros Haccepts.
    rewrite (ensure_table_exists_absent name {| getvalue := []; tell := 0 |}
               w [] Hnew eq_refl Haccepts).
    eexists _, _, _. split; [reflexivity|].
    cbn [table_columns database trace]. split; [done|].
    split; [apply lookup_insert_eq|done].
  - intros Haccepts.
    exact (ensure_table_exists_refused name {| getvalue := []; tell := 0 |}
             w [] Hnew eq_refl Haccepts).
Qed.

(** A section that is its header line only, for a database that takes a
    table without columns and for one that does not. *)
Lemma table_without_fields_witness :
  (∃ schema,
     extract_schema "NOTES - free text, no fields" = Ret schema ∧
     ∃ table schema' w',
       ensure_table_exists "NOTES" schema empty_world
       = Ret (table, schema', w') ∧
       table_columns table = [] ∧
       database w' !! "NOTES" = Some []) ∧
  (∃ schema,
     extract_schema "NOTES - free text, no fields" = Ret schema ∧
     ensure_table_exists "NOTES" schema strict_world = Raise DatabaseError).
Proof.
  split.
  - destruct (table_without_fields_has_no_column
                "NOTES - free text, no fields" "NOTES" empty_world
                eq_refl eq_refl) as (schema & Hschema & _ & Hyes & _).
    exists schema. split; [exact Hschema|].
    destruct (Hyes eq_refl) as (table & schema' & w' & H & Hc & Hdb & _).
    exists table, schema', w'. exact (conj H (conj Hc Hdb)).
  - destruct (table_without_fields_has_no_column
                "NOTES - free text, no fields" "NOTES" strict_world
                eq_refl eq_refl) as (schema & Hschema & _ & _ & Hno).
    exists schema. split; [exact Hschema|]. exact (Hno eq_refl).
Defined.
